(** * MolTx tokenizers: a shallow embedding of [moltx/tokenizers.py]

    The development follows the Python module class by class:
    - [Py]: the few Python built-ins the module relies on (string slicing,
      [str.strip], [str.split], list indexing, exceptions);
    - [Re]: the fragment of [re] that the two patterns of the module use,
      as a backtracking matcher returning the candidate match lengths in
      the order in which the engine tries them;
    - [SmilesAtomwiseTokenizer], [SmilesTokenizer], [MoltxTokenizer].

    Conventions.  A Python [str] is a [string]; a character is an [ascii],
    read as a code point below 256.  Python floats only occur as the dropout
    rate and the draws of [random.random()], and are only ever compared, so
    they are rationals ([Q]).  The random generator is a sequence of draws
    [nat -> Q] together with the number of draws made so far.  The contents
    of files are arguments (the lines of the merge table, the token list of
    a vocabulary file). *)

From Stdlib Require Import Ascii String QArith.
From stdpp Require Import gmap strings list pretty.

Local Open Scope string_scope.
Local Open Scope Z_scope.
Local Open Scope nat_scope.

(** ** Python built-ins *)

Module Py.

Inductive exn :=
| IndexError
| KeyError (key : string)
| RuntimeError (msg : string).

Inductive result (A : Type) :=
| Ok (a : A)
| Raise (e : exn).
Arguments Ok {A} a.
Arguments Raise {A} e.

(** [s[:n]] and [s[n:]] for [0 <= n]. *)
Fixpoint str_take (n : nat) (s : string) : string :=
  match n, s with
  | S n', String c s' => String c (str_take n' s')
  | _, _ => ""
  end.

Fixpoint str_drop (n : nat) (s : string) : string :=
  match n, s with
  | S n', String _ s' => str_drop n' s'
  | _, _ => s
  end.

(** [''.join(l)] *)
Definition join (l : list string) : string := foldr String.append "" l.

(** [s.startswith(c)] for a one-character prefix. *)
Definition startswith (c : ascii) (s : string) : bool :=
  match s with
  | String a _ => bool_decide (a = c)
  | EmptyString => false
  end.

(** [str.isspace] on the code points below 256. *)
Definition isspace (c : ascii) : bool :=
  let n := nat_of_ascii c in
  ((9 <=? n) && (n <=? 13)) || ((28 <=? n) && (n <=? 32))
  || (n =? 133) || (n =? 160).

Fixpoint lstrip (s : string) : string :=
  match s with
  | String c s' => if isspace c then lstrip s' else s
  | EmptyString => ""
  end.

Fixpoint rstrip (s : string) : string :=
  match s with
  | String c s' =>
      match rstrip s' with
      | EmptyString => if isspace c then "" else String c ""
      | r => String c r
      end
  | EmptyString => ""
  end.

(** [s.strip()] *)
Definition strip (s : string) : string := rstrip (lstrip s).

(** [s.split(sep)] for a one-character separator: every occurrence of
    the separator ends a field, so the result is never empty and
    adjacent separators give empty fields. *)
Fixpoint split (sep : ascii) (s : string) : list string :=
  match s with
  | EmptyString => [""]
  | String c s' =>
      if bool_decide (c = sep) then "" :: split sep s'
      else match split sep s' with
           | f :: fs => String c f :: fs
           | [] => [String c ""]
           end
  end.

(** The draws of [random.random()]: the generator is the sequence [g] of
    its draws, the state is the number of draws made so far. *)
Definition random_random (g : nat -> Q) (st : nat) : Q * nat := (g st, S st).

#[global] Instance result_bind : MBind result :=
  λ A B f m, match m with Ok a => f a | Raise e => Raise e end.
#[global] Instance result_ret : MRet result := λ A a, Ok a.
#[global] Instance result_fmap : FMap result :=
  λ A B f m, match m with Ok a => Ok (f a) | Raise e => Raise e end.

(** [enumerate(l)] *)
Definition enumerate {A} (l : list A) : list (nat * A) := imap pair l.

(** [l[i:j]] for [0 <= i], [0 <= j], and [l[i:]]. *)
Definition slice {A} (l : list A) (i j : nat) : list A := take (j - i) (drop i l).

(** [l[i]] for an [int] index: a negative index counts from the end,
    anything outside [-len(l) <= i < len(l)] raises [IndexError]. *)
Definition list_getitem {A} (l : list A) (i : Z) : result A :=
  let i' := if (i <? 0)%Z then (i + Z.of_nat (length l))%Z else i in
  if (i' <? 0)%Z then Raise IndexError
  else match l !! Z.to_nat i' with
       | Some x => Ok x
       | None => Raise IndexError
       end.

End Py.

(** ** The fragment of [re] used by the module *)

Module Re.

Inductive regex :=
| Eps
| Lit (c : ascii)                (* a literal character *)
| Class (p : ascii -> bool)      (* a character set [[...]] or [\w] *)
| Seq (r1 r2 : regex)            (* r1 r2 *)
| Alt (r1 r2 : regex)            (* r1|r2, tried in this order *)
| Opt (r : regex)                (* r?, greedy *)
| PlusClass (p : ascii -> bool). (* [...]+, greedy *)

(** The lengths matched by [[...]+] at the start of [s], longest first. *)
Fixpoint plus_ends (p : ascii -> bool) (s : string) : list nat :=
  match s with
  | String c s' => if p c then (S <$> plus_ends p s') ++ [1] else []
  | EmptyString => []
  end.

(** The lengths [r] can match at the start of [s], in the order in which
    the backtracking engine finds them. *)
Fixpoint ends (r : regex) (s : string) : list nat :=
  match r with
  | Eps => [0]
  | Lit c =>
      match s with
      | String a _ => if bool_decide (a = c) then [1] else []
      | EmptyString => []
      end
  | Class p =>
      match s with
      | String a _ => if p a then [1] else []
      | EmptyString => []
      end
  | Seq r1 r2 =>
      n1 ← ends r1 s; (Nat.add n1) <$> ends r2 (Py.str_drop n1 s)
  | Alt r1 r2 => ends r1 s ++ ends r2 s
  | Opt r => ends r s ++ [0]
  | PlusClass p => plus_ends p s
  end.

(** [r.match(s)]: the length of the match at the start of [s]. *)
Definition match_len (r : regex) (s : string) : option nat := head (ends r s).

(** [r.search(s)]: the offset and the length of the leftmost match. *)
Fixpoint search (r : regex) (s : string) : option (nat * nat) :=
  match match_len r s with
  | Some n => Some (0, n)
  | None =>
      match s with
      | String _ s' => '(k, n) ← search r s'; Some (S k, n)
      | EmptyString => None
      end
  end.

(** [r.findall(s)] for a pattern whose only group is the whole pattern.
    The scan resumes at the end of each match, and one character further
    where nothing matches (or where the match is empty).  [fuel] bounds
    the number of scan steps; [S (length s)] is always enough. *)
Fixpoint findall_from (fuel : nat) (r : regex) (s : string) : list string :=
  match fuel with
  | 0 => []
  | S fuel' =>
      match match_len r s with
      | Some (S n) => Py.str_take (S n) s :: findall_from fuel' r (Py.str_drop (S n) s)
      | Some 0 =>
          "" :: match s with
                | String _ s' => findall_from fuel' r s'
                | EmptyString => []
                end
      | None =>
          match s with
          | String _ s' => findall_from fuel' r s'
          | EmptyString => []
          end
      end
  end.

Definition findall (r : regex) (s : string) : list string :=
  findall_from (S (String.length s)) r s.

(** A lower bound on the length of a match. *)
Fixpoint min_len (r : regex) : nat :=
  match r with
  | Eps | Opt _ => 0
  | Lit _ | Class _ | PlusClass _ => 1
  | Seq r1 r2 => min_len r1 + min_len r2
  | Alt r1 r2 => Nat.min (min_len r1) (min_len r2)
  end.

(** Helpers to write patterns. *)
Definition alts (rs : list regex) (last : regex) : regex := foldr Alt last rs.
Fixpoint rep (n : nat) (r : regex) : regex :=
  match n with
  | 0 => Eps
  | 1 => r
  | S n' => Seq r (rep n' r)
  end.
Definition one_of (cs : string) : list regex := Lit <$> list_ascii_of_string cs.
Definition digit (c : ascii) : bool :=
  let n := nat_of_ascii c in (48 <=? n) && (n <=? 57).

End Re.

(** ** [class SmilesAtomwiseTokenizer] *)

Module SmilesAtomwiseTokenizer.
Import Re.

(** [REGEX = r"(\[[^\]]+]|Br?|Cl?|N|O|S|P|F|I|b|c|n|o|s|p|\(|\)|\.|=|#|-|\+|\\|\/|:|~|@|\?|>|\*|\$|\%[0-9]{2}|[0-9])"] *)
Definition REGEX : regex :=
  alts
    ([ Seq (Lit "[") (Seq (PlusClass (λ c, negb (bool_decide (c = "]"%char)))) (Lit "]"));
       Seq (Lit "B") (Opt (Lit "r"));
       Seq (Lit "C") (Opt (Lit "l")) ]
     ++ one_of "NOSPFIbcnosp"
     ++ one_of "().=#-+\/:~@?>*$"
     ++ [ Seq (Lit "%") (rep 2 (Class digit)) ])
    (Class digit).

Record t := { _exclusive : option (list string) }.

(** [if self._exclusive:] holds for a non-empty list only. *)
Definition exclusive_set (self : t) : option (list string) :=
  match _exclusive self with
  | Some (x :: l) => Some (x :: l)
  | _ => None
  end.

(** [__call__] *)
Definition __call__ (self : t) (smiles : string) : list string :=
  let tokens := findall REGEX smiles in
  match exclusive_set self with
  | Some excl =>
      (λ token, if Py.startswith "[" token && negb (bool_decide (token ∈ excl))
                then "<unk>" else token) <$> tokens
  | None => tokens
  end.

End SmilesAtomwiseTokenizer.

(** ** [class SmilesTokenizer] *)

Module SmilesTokenizer.

(** A key of [bpe_codes] is a tuple of strings: [tuple(line.split(' '))]
    on the side of the table, [(a, b)] from [zip] on the side of the
    lookup. *)
Record t := {
  smi_tkz : SmilesAtomwiseTokenizer.t;
  dropout : Q;
  bpe_codes : gmap (list string) nat
}.

(** [[tuple(item.strip().split(' ')) for (n, item) in enumerate(f)
      if (n < merges or merges == -1)]] *)
Definition read_codes (f : list string) (merges : Z) : list (list string) :=
  omap (λ '(n, item),
          if bool_decide ((Z.of_nat n < merges)%Z ∨ merges = (-1)%Z)
          then Some (Py.split " " (Py.strip item)) else None)
       (Py.enumerate f).

(** [for i, item in enumerate(bpe_codes): if len(item) != 2: raise ...] *)
Fixpoint check_codes (codes : list (nat * list string)) : Py.result unit :=
  match codes with
  | [] => Py.Ok ()
  | (i, item) :: rest =>
      if bool_decide (length item ≠ 2)
      then Py.Raise (Py.RuntimeError ("Invalid BPE code at line: " +:+ pretty i))
      else check_codes rest
  end.

(** [dict([(code, i) for (i, code) in enumerate(bpe_codes)])]: a later
    entry replaces an earlier one with the same key. *)
Definition codes_dict (codes : list (list string)) : gmap (list string) nat :=
  foldl (λ d '(i, code), <[code := i]> d) ∅ (Py.enumerate codes).

(** [__init__]: the object as it is when the constructor exits, and how it
    exits.  [codes_path] stands for the lines of the file at that path. *)
Definition __init__ (codes_path : option (list string)) (dropout : Q) (merges : Z)
    (exclusive_tokens : option (list string)) : t * Py.result unit :=
  let self := {| smi_tkz := {| SmilesAtomwiseTokenizer._exclusive := exclusive_tokens |};
                 dropout := dropout;
                 bpe_codes := ∅ |} in
  match codes_path with
  | None => (self, Py.Ok ())
  | Some f =>
      let codes := read_codes f merges in
      match check_codes (Py.enumerate codes) with
      | Py.Raise e => (self, Py.Raise e)
      | Py.Ok _ =>
          ({| smi_tkz := smi_tkz self; dropout := dropout;
              bpe_codes := codes_dict codes |}, Py.Ok ())
      end
  end.

(** [zip(tokens, tokens[1:])] *)
Definition adjacent (tokens : list string) : list (list string) :=
  zip_with (λ a b, [a; b]) tokens (drop 1 tokens).

(** [(not self.dropout or random.random() > self.dropout)]: a draw is made
    for every pair as soon as the dropout is not zero. *)
Definition undropped (self : t) (g : nat -> Q) (st : nat) : bool * nat :=
  if Qeq_bool (dropout self) 0 then (true, st)
  else let '(r, st') := Py.random_random g st in
       (negb (Qle_bool r (dropout self)), st').

(** [[(self.bpe_codes[pair], i, pair) for (i, pair) in enumerate(zip(...))
      if (not self.dropout or random.random() > self.dropout)
         and pair in self.bpe_codes]] *)
Fixpoint candidates (self : t) (g : nat -> Q) (ips : list (nat * list string))
    (st : nat) : list (nat * nat * list string) * nat :=
  match ips with
  | [] => ([], st)
  | (i, pr) :: rest =>
      let '(keep, st1) := undropped self g st in
      let '(ps, st2) := candidates self g rest st1 in
      match (if keep then bpe_codes self !! pr else None) with
      | Some rank => ((rank, i, pr) :: ps, st2)
      | None => (ps, st2)
      end
  end.

(** The order of the triples [(rank, i, pair)]: the positions [i] of one
    list of candidates are pairwise distinct, so the comparison of two of
    its triples is settled by [(rank, i)]. *)
Definition triple_ltb (x y : nat * nat * list string) : bool :=
  let '(r1, i1, _) := x in
  let '(r2, i2, _) := y in
  (r1 <? r2) || ((r1 =? r2) && (i1 <? i2)).

(** [min(pairs)] for a non-empty list. *)
Definition min (p : nat * nat * list string) (ps : list (nat * nat * list string)) :
    nat * nat * list string :=
  foldl (λ m y, if triple_ltb y m then y else m) p ps.

(** The [for j in positions] loop, and the final [extend]. *)
Fixpoint merge (tokens : list string) (bigram : string) (positions : list nat)
    (i : nat) (new_tokens : list string) : list string :=
  match positions with
  | [] => new_tokens ++ drop i tokens
  | j :: rest =>
      if j <? i then merge tokens bigram rest i new_tokens
      else merge tokens bigram rest (j + 2)
             (new_tokens ++ Py.slice tokens i j ++ [bigram])
  end.

(** One pass of the [while] loop once [pairs] is known not to be empty. *)
Definition merge_pass (tokens : list string) (p : nat * nat * list string)
    (ps : list (nat * nat * list string)) : list string :=
  let bigram := (min p ps).2 in
  let positions :=
    omap (λ '(rank, i, pr), if decide (pr = bigram) then Some i else None)
         (p :: ps) in
  merge tokens (Py.join bigram) positions 0 [].

(** The [while len(tokens) > 1] loop.  [None] only when [fuel] passes are
    not enough. *)
Fixpoint merge_loop (fuel : nat) (self : t) (g : nat -> Q) (tokens : list string)
    (st : nat) : option (list string * nat) :=
  if length tokens <=? 1 then Some (tokens, st)
  else
    let '(pairs, st') := candidates self g (Py.enumerate (adjacent tokens)) st in
    match pairs with
    | [] => Some (tokens, st')
    | p :: ps =>
        match fuel with
        | 0 => None
        | S fuel' => merge_loop fuel' self g (merge_pass tokens p ps) st'
        end
    end.

(** [__call__]: every pass removes a token, so [len(tokens)] passes are
    enough. *)
Definition __call__ (self : t) (g : nat -> Q) (smiles : string) (st : nat) :
    option (list string * nat) :=
  if String.length smiles =? 1 then Some ([smiles], st)
  else
    let tokens := SmilesAtomwiseTokenizer.__call__ (smi_tkz self) smiles in
    merge_loop (length tokens) self g tokens st.

End SmilesTokenizer.

(** ** [class NumericalTokenizer] *)

Module NumericalTokenizer.
Import Re.

Definition sign (c : ascii) : bool :=
  bool_decide (c = "+"%char) || bool_decide (c = "-"%char).

(** [REGEX = r"([+-]?\d|\.)"]; on the code points below 256, [\d] is
    [[0-9]]. *)
Definition REGEX : regex :=
  Alt (Seq (Opt (Class sign)) (Class digit)) (Lit ".").

(** [digits.index('.')], when it does not raise [ValueError]. *)
Fixpoint index_dot (digits : list string) : option nat :=
  match digits with
  | [] => None
  | d :: rest => if bool_decide (d = ".") then Some 0 else S <$> index_dot rest
  end.

(** [p = dot - idx], less one before the dot. *)
Definition exponent (dot idx : nat) : Z :=
  let p := (Z.of_nat dot - Z.of_nat idx)%Z in
  if idx <? dot then (p - 1)%Z else p.

(** [f'_{v}_{p}_'] *)
Definition format (v : string) (p : Z) : string :=
  "_" +:+ v +:+ "_" +:+ pretty p +:+ "_".

(** The body of the [for idx, v in enumerate(digits)] loop. *)
Definition place (dot : nat) (tokens : list string) (iv : nat * string) : list string :=
  let '(idx, v) := iv in
  if bool_decide (idx = dot) then tokens
  else <[idx := format v (exponent dot idx)]> tokens.

(** [__call__] *)
Definition __call__ (number : string) : list string :=
  let digits := findall REGEX number in
  let dot := default (length digits) (index_dot digits) in
  foldl (place dot) digits (Py.enumerate digits).

End NumericalTokenizer.

(** ** [class MoltxTokenizer] *)

Module MoltxTokenizer.

(** [\w] on the code points below 256: letters, digits and the underscore. *)
Definition word (c : ascii) : bool :=
  let n := nat_of_ascii c in
  ((48 <=? n) && (n <=? 57)) || ((65 <=? n) && (n <=? 90)) || (n =? 95)
  || ((97 <=? n) && (n <=? 122))
  || (n =? 170) || (n =? 178) || (n =? 179) || (n =? 181) || (n =? 185)
  || (n =? 186) || ((188 <=? n) && (n <=? 190))
  || ((192 <=? n) && (n <=? 214)) || ((216 <=? n) && (n <=? 246))
  || (248 <=? n).

(** [REGEX = re.compile(r"<\w{3}>")] *)
Definition REGEX : Re.regex :=
  Re.Seq (Re.Lit "<") (Re.Seq (Re.rep 3 (Re.Class word)) (Re.Lit ">")).

Record t := {
  _tokens : list string;
  _token_idx : gmap string nat;
  _token_size : Z;
  _freeze : bool;
  _smi_tkz : SmilesTokenizer.t
}.

Definition pad : string := "<pad>".
Definition unk : string := "<unk>".
Definition bos : string := "<bos>".
Definition eos : string := "<eos>".
Definition sep : string := "<sep>".
Definition cls : string := "<cls>".
Definition reserved : list string := [pad; unk; bos; eos; sep; cls].

Definition set_vocabulary (self : t) (tokens : list string) (idx : gmap string nat) : t :=
  {| _tokens := tokens; _token_idx := idx; _token_size := _token_size self;
     _freeze := _freeze self; _smi_tkz := _smi_tkz self |}.

Definition set_freeze (self : t) (freeze : bool) : t :=
  {| _tokens := _tokens self; _token_idx := _token_idx self;
     _token_size := _token_size self; _freeze := freeze;
     _smi_tkz := _smi_tkz self |}.

(** The [for token in tokens] loop of [_update_tokens]; the [return] at
    capacity leaves the loop. *)
Fixpoint register (self : t) (tokens : list string) : t :=
  match tokens with
  | [] => self
  | token :: rest =>
      match _token_idx self !! token with
      | Some _ => register self rest
      | None =>
          let l := length (_tokens self) in
          if (_token_size self <=? Z.of_nat l)%Z then self
          else register (set_vocabulary self (_tokens self ++ [token])
                           (<[token := l]> (_token_idx self))) rest
      end
  end.

Definition _update_tokens (self : t) (tokens : list string) : t :=
  if _freeze self then self else register self tokens.

Definition _load_tokens (self : t) (tokens : list string) : t :=
  let freeze := _freeze self in
  let self := set_freeze self false in
  let self := _update_tokens self tokens in
  set_freeze self freeze.

(** [loads] and [load], on the token list of the JSON document. *)
Definition load (self : t) (tokens : list string) : t := _load_tokens self tokens.

Definition default_token_size : Z := 512.
Definition default_dropout : Q := 1000000001 # 1000000000. (* 1.000000001 *)

(** [__init__]; an argument left out is [None] and takes its default.
    [spe_codes] stands for the lines of the file at that path. *)
Definition __init__ (token_size : option Z) (freeze : option bool)
    (dropout : option Q) (spe_codes : option (list string))
    (spe_merges : option Z) : Py.result t :=
  let self := {| _tokens := []; _token_idx := ∅;
                 _token_size := default default_token_size token_size;
                 _freeze := default false freeze;
                 _smi_tkz := {| SmilesTokenizer.smi_tkz :=
                                  {| SmilesAtomwiseTokenizer._exclusive := None |};
                                SmilesTokenizer.dropout := 0;
                                SmilesTokenizer.bpe_codes := ∅ |} |} in
  let self := _update_tokens self reserved in
  let dropout := default default_dropout dropout in
  let '(smi, exit) :=
    match spe_codes with
    | Some f => SmilesTokenizer.__init__ (Some f) dropout (default (-1)%Z spe_merges) None
    | None => SmilesTokenizer.__init__ None dropout (-1)%Z None
    end in
  _ ← exit;
  mret {| _tokens := _tokens self; _token_idx := _token_idx self;
          _token_size := _token_size self; _freeze := _freeze self;
          _smi_tkz := smi |}.

(** [encode], on the part of [smiles] from [pos] on.  Every match of
    [REGEX] consumes five characters, so [len(smiles)] rounds are enough;
    [None] only when [fuel] rounds are not. *)
Fixpoint encode_from (fuel : nat) (self : t) (g : nat -> Q) (s : string) (st : nat) :
    option (list string * nat) :=
  match Re.search REGEX s with
  | Some (start, len) =>
      match fuel with
      | 0 => None
      | S fuel' =>
          '(gap, st1) ← (if 0 <? start
                         then SmilesTokenizer.__call__ (_smi_tkz self) g (Py.str_take start s) st
                         else Some ([], st));
          '(rest, st2) ← encode_from fuel' self g (Py.str_drop (start + len) s) st1;
          Some ((gap ++ Py.str_take len (Py.str_drop start s) :: rest)%list, st2)
      end
  | None =>
      if 0 <? String.length s
      then SmilesTokenizer.__call__ (_smi_tkz self) g s st
      else Some ([], st)
  end.

Definition encode (self : t) (g : nat -> Q) (smiles : string) (st : nat) :
    option (list string * nat) :=
  encode_from (String.length smiles) self g smiles st.

(** What [__call__] and [__getitem__] return: strings or identifiers. *)
Inductive value :=
| Str (s : string)
| Int (i : Z).

(** [__call__]: the object and the generator after the call, and the
    outcome. *)
Definition __call__ (self : t) (g : nat -> Q) (smiles : string) (tokens_only : bool)
    (st : nat) : option (t * nat * Py.result (list value)) :=
  '(tokens, st') ← encode self g smiles st;
  let self := _update_tokens self tokens in
  Some (self, st',
        if tokens_only then Py.Ok (Str <$> tokens)
        else match _token_idx self !! unk with
             | None => Py.Raise (Py.KeyError unk)
             | Some u =>
                 Py.Ok ((λ t, Int (Z.of_nat (default u (_token_idx self !! t)))) <$> tokens)
             end).

(** [__getitem__]: the default of [dict.get] is evaluated before the
    lookup. *)
Definition __getitem__ (self : t) (item : value) : Py.result value :=
  match item with
  | Int i => Str <$> Py.list_getitem (_tokens self) i
  | Str s =>
      match _token_idx self !! unk with
      | None => Py.Raise (Py.KeyError unk)
      | Some u => Py.Ok (Int (Z.of_nat (default u (_token_idx self !! s))))
      end
  end.

(** [__len__] *)
Definition __len__ (self : t) : nat := length (_tokens self).

(** [[self._tokens[idx] for idx in token_idxs]] *)
Fixpoint lookup_all (self : t) (token_idxs : list Z) : Py.result (list string) :=
  match token_idxs with
  | [] => Py.Ok []
  | idx :: rest =>
      token ← Py.list_getitem (_tokens self) idx;
      tokens ← lookup_all self rest;
      mret (token :: tokens)
  end.

Definition decode (self : t) (token_idxs : list Z) : Py.result string :=
  tokens ← lookup_all self token_idxs; mret (Py.join tokens).

(** The calls that may register tokens, and a run of them on one object. *)
Inductive registration :=
| Update (tokens : list string)              (* [_update_tokens(tokens)] *)
| Call (smiles : string) (tokens_only : bool) (* [__call__(smiles, tokens_only)] *)
| Load (tokens : list string).               (* [load(path)], [loads(json)] *)

Definition step (g : nat -> Q) (s : t * nat) (c : registration) : option (t * nat) :=
  match c with
  | Update tokens => Some (_update_tokens s.1 tokens, s.2)
  | Call smiles tokens_only =>
      '(self, st, _) ← __call__ s.1 g smiles tokens_only s.2; Some (self, st)
  | Load tokens => Some (load s.1 tokens, s.2)
  end.

Fixpoint run (g : nat -> Q) (s : t * nat) (cs : list registration) : option (t * nat) :=
  match cs with
  | [] => Some s
  | c :: cs' => s' ← step g s c; run g s' cs'
  end.

(** [dumps], as the list under ['tokens'] of the JSON document it
    writes; [loads] and [load] read that list back ([load] above). *)
Definition dumps (self : t) : list string := _tokens self.

(** [from_jsonfile]: the constructor with [freeze=True] and [spe_codes] the
    merge table of the molecule type, then [load] of its vocabulary file.
    The two files are given by their contents. *)
Definition from_jsonfile (spe_file tks_file : list string) (token_size : option Z)
    (dropout : option Q) (spe_merges : option Z) : Py.result t :=
  tkz ← __init__ token_size (Some true) dropout (Some spe_file) spe_merges;
  mret (load tkz tks_file).

End MoltxTokenizer.

(** ** The text kept by the atom splitter *)

Module Grammar.

(** The input with the characters that match no alternative of the
    splitter's grammar removed, read off the description of the splitter:
    going through the text from the left, where an alternative matches, the
    matched characters are kept and the scan resumes after them; where none
    does, the character is removed. *)
Fixpoint kept_from (fuel : nat) (s : string) : string :=
  match fuel, s with
  | S fuel', String _ s' =>
      match Re.match_len SmilesAtomwiseTokenizer.REGEX s with
      | Some (S n) => Py.str_take (S n) s ++ kept_from fuel' (Py.str_drop (S n) s)
      | _ => kept_from fuel' s'
      end
  | _, _ => ""
  end.

Definition kept (s : string) : string := kept_from (String.length s) s.

End Grammar.

(** ** Vocabulary of the statements *)

Section Vocabulary.
Import MoltxTokenizer.

(** The identifier an [int] index denotes: a negative one counts from the
    end of the vocabulary. *)
Definition position (self : t) (i : Z) : nat :=
  Z.to_nat (if (i <? 0)%Z then Z.of_nat (__len__ self) + i else i)%Z.

Definition in_range (self : t) (i : Z) : Prop :=
  (- Z.of_nat (__len__ self) <= i < Z.of_nat (__len__ self))%Z.

(** The fields of a line of the merge-table file, the lines [merges]
    retains, a tuple the check refuses, and the message of the error. *)
Definition fields (line : string) : list string := Py.split " " (Py.strip line).
Definition retained (merges : Z) (n : nat) : Prop :=
  (Z.of_nat n < merges)%Z ∨ merges = (-1)%Z.
Definition invalid (item : list string) : Prop := length item ≠ 2.
Definition message (i : nat) : string := "Invalid BPE code at line: " +:+ pretty i.

(** The two halves of the vocabulary agree: a token has the identifier
    [i] exactly when it is the [i]-th token of the list. *)
Definition consistent (self : t) : Prop :=
  ∀ token i, _token_idx self !! token = Some i ↔ _tokens self !! i = Some token.

Definition within_capacity (self : t) : Prop :=
  (Z.of_nat (__len__ self) <= _token_size self)%Z.

(** No identifier is lost between [self] and [self']. *)
Definition extends (self self' : t) : Prop :=
  ∀ token i, _token_idx self !! token = Some i → _token_idx self' !! token = Some i.

(** Every identifier assigned in [before] is, in [after], still the
    identifier of the same token and of no other. *)
Definition keeps_identifiers (before after : t) : Prop :=
  ∀ token i,
    _token_idx before !! token = Some i →
    _token_idx after !! token = Some i
    ∧ _tokens after !! i = Some token
    ∧ ∀ token', _token_idx after !! token' = Some i → token' = token.

(** The pair [(a, b)] occurs at position [j] of [tokens]. *)
Definition occurs (tokens : list string) (a b : string) (j : nat) : Prop :=
  tokens !! j = Some a ∧ tokens !! S j = Some b.

(** Objects and a generator to evaluate the statements on. *)
Definition half : nat -> Q := λ _, 1 # 2.

Definition plain : SmilesTokenizer.t :=
  {| SmilesTokenizer.smi_tkz := {| SmilesAtomwiseTokenizer._exclusive := None |};
     SmilesTokenizer.dropout := 0;
     SmilesTokenizer.bpe_codes := ∅ |}.

Definition small : t :=
  {| _tokens := reserved;
     _token_idx := list_to_map (zip reserved (seq 0 6));
     _token_size := 9;
     _freeze := false;
     _smi_tkz := {| SmilesTokenizer.smi_tkz :=
                      {| SmilesAtomwiseTokenizer._exclusive := None |};
                    SmilesTokenizer.dropout := default_dropout;
                    SmilesTokenizer.bpe_codes := ∅ |} |}.

Definition fresh : t :=
  {| _tokens := reserved;
     _token_idx := list_to_map (zip reserved (seq 0 6));
     _token_size := default_token_size;
     _freeze := false;
     _smi_tkz := {| SmilesTokenizer.smi_tkz :=
                      {| SmilesAtomwiseTokenizer._exclusive := None |};
                    SmilesTokenizer.dropout := default_dropout;
                    SmilesTokenizer.bpe_codes := ∅ |} |}.

End Vocabulary.

(** * Properties *)

(** ** The scenarios of the description, evaluated *)

Section Scenarios.

Example split_aspirin :
  SmilesAtomwiseTokenizer.__call__ {| SmilesAtomwiseTokenizer._exclusive := None |}
    "CC(=O)Oc1ccccc1C(=O)O"
  = ["C"; "C"; "("; "="; "O"; ")"; "O"; "c"; "1"; "c"; "c"; "c"; "c"; "c"; "1";
     "C"; "("; "="; "O"; ")"; "O"].
Proof. vm_compute. reflexivity. Qed.

Example split_exclusive :
  SmilesAtomwiseTokenizer.__call__
    {| SmilesAtomwiseTokenizer._exclusive := Some ["[nH]"] |} "[C@@H]c[nH]Cl"
  = ["<unk>"; "c"; "[nH]"; "Cl"].
Proof. vm_compute. reflexivity. Qed.

Example tag_interleaving :
  MoltxTokenizer.encode fresh half "<bos>CC<eos>" 0
  = Some (["<bos>"; "C"; "C"; "<eos>"], 1).
Proof. vm_compute. reflexivity. Qed.

Example merges_in_rank_order :
  SmilesTokenizer.__call__
    (SmilesTokenizer.__init__ (Some ["C C"; "CC C"; "= O"]) 0 (-1) None).1 half
    "CCC(=O)CCCzC[nH+]%12" 0
  = Some (["CCC"; "("; "=O"; ")"; "CC"; "CC"; "[nH+]"; "%12"], 0).
Proof. vm_compute. reflexivity. Qed.

End Scenarios.

(** ** Strings and lists *)

Section Strings.

Lemma append_cons (c : ascii) (s t : string) : String c s ++ t = String c (s ++ t).
Proof. reflexivity. Qed.

Lemma append_empty_r (s : string) : s ++ "" = s.
Proof. induction s as [|c s IH]; [done | by rewrite append_cons, IH]. Qed.

Lemma append_assoc (s1 s2 s3 : string) : (s1 ++ s2) ++ s3 = s1 ++ (s2 ++ s3).
Proof. induction s1 as [|c s1 IH]; [done | by rewrite !append_cons, IH]. Qed.

Lemma str_take_drop (n : nat) (s : string) : Py.str_take n s ++ Py.str_drop n s = s.
Proof.
  revert s; induction n as [|n IH]; intros [|c s]; cbn [Py.str_take Py.str_drop]; try done.
  by rewrite append_cons, IH.
Qed.

Lemma length_str_drop (n : nat) (s : string) :
  String.length (Py.str_drop n s) = String.length s - n.
Proof. revert s; induction n as [|n IH]; intros [|c s]; simpl; auto with lia. Qed.

Lemma join_cons (s : string) (l : list string) : Py.join (s :: l) = s ++ Py.join l.
Proof. done. Qed.

Lemma join_app (l1 l2 : list string) : Py.join (l1 ++ l2) = Py.join l1 ++ Py.join l2.
Proof.
  induction l1 as [|s l1 IH]; [done |].
  by rewrite <- app_comm_cons, !join_cons, IH, append_assoc.
Qed.

Lemma join_pair (a b : string) : Py.join [a; b] = a ++ b.
Proof. unfold Py.join; cbn [foldr]. by rewrite append_empty_r. Qed.

End Strings.

(** ** Python list indexing *)

Section Indexing.
Context {A : Type}.
Implicit Types (l : list A) (i : Z).

Lemma list_getitem_nonneg l i :
  (0 <= i)%Z → Py.list_getitem l i = from_option Py.Ok (Py.Raise Py.IndexError) (l !! Z.to_nat i).
Proof.
  intros Hi. unfold Py.list_getitem.
  destruct (Z.ltb_spec i 0); [lia |]. destruct (Z.ltb_spec i 0); [lia |].
  by destruct (l !! Z.to_nat i).
Qed.

Lemma list_getitem_ge l i :
  (Z.of_nat (length l) <= i)%Z → Py.list_getitem l i = Py.Raise Py.IndexError.
Proof.
  intros Hi. rewrite list_getitem_nonneg by lia.
  rewrite lookup_ge_None_2; [done | lia].
Qed.

Lemma list_getitem_lt l i :
  (0 <= i < Z.of_nat (length l))%Z →
  ∃ x, l !! Z.to_nat i = Some x ∧ Py.list_getitem l i = Py.Ok x.
Proof.
  intros Hi. rewrite list_getitem_nonneg by lia.
  destruct (lookup_lt_is_Some_2 l (Z.to_nat i)) as [x Hx]; [lia |].
  exists x. by rewrite Hx.
Qed.

Lemma list_getitem_negative l i :
  (- Z.of_nat (length l) <= i < 0)%Z →
  ∃ x, l !! Z.to_nat (Z.of_nat (length l) + i) = Some x ∧ Py.list_getitem l i = Py.Ok x.
Proof.
  intros Hi. unfold Py.list_getitem.
  destruct (Z.ltb_spec i 0); [| lia].
  destruct (Z.ltb_spec (i + Z.of_nat (length l)) 0); [lia |].
  replace (i + Z.of_nat (length l))%Z with (Z.of_nat (length l) + i)%Z by lia.
  destruct (lookup_lt_is_Some_2 l (Z.to_nat (Z.of_nat (length l) + i))) as [x Hx]; [lia |].
  exists x. by rewrite Hx.
Qed.

Lemma list_getitem_below l i :
  (i < - Z.of_nat (length l))%Z → Py.list_getitem l i = Py.Raise Py.IndexError.
Proof.
  intros Hi. unfold Py.list_getitem.
  destruct (Z.ltb_spec i 0); [| lia].
  destruct (Z.ltb_spec (i + Z.of_nat (length l)) 0); [done | lia].
Qed.

Lemma list_getitem_raises l i e :
  Py.list_getitem l i = Py.Raise e →
  e = Py.IndexError ∧ (Z.of_nat (length l) <= i ∨ i < - Z.of_nat (length l))%Z.
Proof.
  intros He.
  destruct (Z.le_gt_cases (Z.of_nat (length l)) i) as [Hge|Hlt].
  { rewrite list_getitem_ge in He by done. split; [congruence | by left]. }
  destruct (Z.lt_ge_cases i (- Z.of_nat (length l))) as [Hb|Hb].
  { rewrite list_getitem_below in He by done. split; [congruence | by right]. }
  destruct (Z.lt_ge_cases i 0) as [Hneg|Hpos].
  - destruct (list_getitem_negative l i) as (x & _ & Hx); [lia | congruence].
  - destruct (list_getitem_lt l i) as (x & _ & Hx); [lia | congruence].
Qed.

Lemma list_getitem_returns l i x :
  Py.list_getitem l i = Py.Ok x → (- Z.of_nat (length l) <= i < Z.of_nat (length l))%Z.
Proof.
  intros Hx.
  destruct (Z.le_gt_cases (Z.of_nat (length l)) i) as [Hge|Hlt].
  { by rewrite list_getitem_ge in Hx. }
  destruct (Z.lt_ge_cases i (- Z.of_nat (length l))) as [Hb|Hb].
  { by rewrite list_getitem_below in Hx. }
  lia.
Qed.

End Indexing.

Section Decode.
Import MoltxTokenizer.
Implicit Types (self : t) (i : Z).

Lemma list_getitem_in_range self i :
  in_range self i →
  Py.list_getitem (_tokens self) i = Py.Ok (_tokens self !!! position self i).
Proof.
  unfold in_range, position, __len__. intros Hi.
  destruct (Z.ltb_spec i 0).
  - destruct (list_getitem_negative (_tokens self) i) as (x & Hx & ->); [lia |].
    by rewrite (list_lookup_total_correct _ _ _ Hx).
  - destruct (list_getitem_lt (_tokens self) i) as (x & Hx & ->); [lia |].
    by rewrite (list_lookup_total_correct _ _ _ Hx).
Qed.

Lemma lookup_all_in_range self (token_idxs : list Z) :
  Forall (in_range self) token_idxs →
  lookup_all self token_idxs
  = Py.Ok ((λ i, _tokens self !!! position self i) <$> token_idxs).
Proof.
  induction 1 as [|i rest Hi _ IH]; [done |].
  cbn [lookup_all]. rewrite (list_getitem_in_range _ _ Hi). cbn.
  rewrite IH. done.
Qed.

Lemma lookup_all_out_of_range self (token_idxs : list Z) i :
  i ∈ token_idxs → ¬ in_range self i →
  lookup_all self token_idxs = Py.Raise Py.IndexError.
Proof.
  intros Hin Hout.
  induction token_idxs as [|j rest IH]; [by apply elem_of_nil in Hin |].
  cbn [lookup_all].
  destruct (Py.list_getitem (_tokens self) j) as [x|e] eqn:Hj; cbn.
  - apply elem_of_cons in Hin as [<-|Hin].
    + exfalso. apply Hout. unfold in_range, __len__.
      by apply list_getitem_returns in Hj.
    + rewrite (IH Hin). done.
  - by apply list_getitem_raises in Hj as [-> _].
Qed.

End Decode.

(** ** [tokenOf]: [__getitem__] on an [int], and [decode] *)

Section TokenOf.
Import MoltxTokenizer.

Example fresh_constructed : __init__ None None None None None = Py.Ok fresh.
Proof. vm_compute. reflexivity. Qed.

(** C7. For an identifier [i] at or above the current vocabulary size,
    [__getitem__] raises [IndexError] and so does [decode] on any list that
    contains [i]: no fallback value is returned.  For [0 <= i < size],
    [__getitem__] returns the token stored at identifier [i]. *)
Theorem tokenOf_out_of_range (self : t) (i : Z) :
  ((Z.of_nat (__len__ self) <= i)%Z →
     __getitem__ self (Int i) = Py.Raise Py.IndexError
     ∧ ∀ token_idxs, i ∈ token_idxs → decode self token_idxs = Py.Raise Py.IndexError)
  ∧ ((0 <= i < Z.of_nat (__len__ self))%Z →
     ∃ token, _tokens self !! Z.to_nat i = Some token
              ∧ __getitem__ self (Int i) = Py.Ok (Str token)).
Proof.
  unfold __len__. split.
  - intros Hi. split.
    + cbn. by rewrite list_getitem_ge.
    + intros token_idxs Hin. unfold decode.
      rewrite (lookup_all_out_of_range self token_idxs i Hin); [done |].
      unfold in_range, __len__. lia.
  - intros Hi. destruct (list_getitem_lt (_tokens self) i Hi) as (token & Htoken & Hget).
    exists token. split; [done |]. cbn. by rewrite Hget.
Qed.

Lemma tokenOf_out_of_range_witness :
  __getitem__ fresh (Int 6) = Py.Raise Py.IndexError
  ∧ decode fresh [1; 6; 2]%Z = Py.Raise Py.IndexError
  ∧ ∃ token, _tokens fresh !! Z.to_nat 1 = Some token
             ∧ __getitem__ fresh (Int 1) = Py.Ok (Str token).
Proof.
  destruct (tokenOf_out_of_range fresh 6) as [Hout _].
  destruct (tokenOf_out_of_range fresh 1) as [_ Hin].
  destruct Hout as [Hget Hdecode]; [vm_compute; discriminate |].
  split; [exact Hget |].
  split; [apply Hdecode; set_solver |].
  apply Hin. vm_compute. split; [discriminate | reflexivity].
Defined.

(** C10. A negative identifier [i] with [-size <= i < 0] does not fail:
    [__getitem__] returns the token at position [size + i], and [decode]
    on a list of identifiers that are all in [-size <= i < size] returns
    the concatenation of the tokens they denote, the negative ones counted
    from the end.  [__getitem__] raises only for [i >= size] or
    [i < -size], and what it raises is [IndexError]. *)
Theorem tokenOf_negative (self : t) (i : Z) :
  ((- Z.of_nat (__len__ self) <= i < 0)%Z →
     ∃ token, _tokens self !! Z.to_nat (Z.of_nat (__len__ self) + i) = Some token
              ∧ __getitem__ self (Int i) = Py.Ok (Str token))
  ∧ (∀ token_idxs, Forall (in_range self) token_idxs →
       decode self token_idxs
       = Py.Ok (Py.join ((λ j, _tokens self !!! position self j) <$> token_idxs)))
  ∧ (∀ e, __getitem__ self (Int i) = Py.Raise e →
       e = Py.IndexError
       ∧ (Z.of_nat (__len__ self) <= i ∨ i < - Z.of_nat (__len__ self))%Z).
Proof.
  unfold __len__. split; [| split].
  - intros Hi.
    destruct (list_getitem_negative (_tokens self) i Hi) as (token & Htoken & Hget).
    exists token. split; [done |]. cbn. by rewrite Hget.
  - intros token_idxs Hall. unfold decode.
    by rewrite (lookup_all_in_range self token_idxs Hall).
  - intros e He. cbn in He.
    destruct (Py.list_getitem (_tokens self) i) as [x|e'] eqn:Hget; [done |].
    apply list_getitem_raises in Hget. cbn in He. by simplify_eq.
Qed.

Lemma tokenOf_negative_witness :
  (∃ token, _tokens fresh !! Z.to_nat (Z.of_nat (__len__ fresh) + -1) = Some token
            ∧ __getitem__ fresh (Int (-1)) = Py.Ok (Str token))
  ∧ decode fresh [-1; 0; -6]%Z = Py.Ok "<cls><pad><pad>".
Proof.
  destruct (tokenOf_negative fresh (-1)) as (Hneg & Hdecode & _).
  split.
  - apply Hneg. vm_compute. split; [discriminate | reflexivity].
  - rewrite Hdecode; [reflexivity |].
    repeat constructor; vm_compute; discriminate.
Defined.

End TokenOf.

(** ** Construction of a [MoltxTokenizer] and [idOf] *)

Section Construction.
Import MoltxTokenizer.

Lemma register_fields self tokens :
  _token_size (register self tokens) = _token_size self
  ∧ _freeze (register self tokens) = _freeze self
  ∧ _smi_tkz (register self tokens) = _smi_tkz self.
Proof.
  revert self. induction tokens as [|token rest IH]; intros self; [done |].
  cbn [register]. destruct (_token_idx self !! token); [apply IH |].
  destruct (_token_size self <=? _)%Z; [done |].
  destruct (IH (set_vocabulary self (_tokens self ++ [token])
                  (<[token:=length (_tokens self)]> (_token_idx self)))) as (-> & -> & ->).
  done.
Qed.

Lemma update_tokens_token_size self tokens :
  _token_size (_update_tokens self tokens) = _token_size self.
Proof. unfold _update_tokens. destruct (_freeze self); [done | apply register_fields]. Qed.

Lemma update_tokens_freeze self tokens :
  _freeze (_update_tokens self tokens) = _freeze self.
Proof. unfold _update_tokens. destruct (_freeze self) eqn:E; [done |]. rewrite <- E. apply register_fields. Qed.

Lemma update_tokens_smi_tkz self tokens :
  _smi_tkz (_update_tokens self tokens) = _smi_tkz self.
Proof. unfold _update_tokens. destruct (_freeze self); [done | apply register_fields]. Qed.

Lemma init_vocabulary token_size freeze dropout spe_codes spe_merges self :
  __init__ token_size freeze dropout spe_codes spe_merges = Py.Ok self →
  let self0 := {| _tokens := []; _token_idx := ∅;
                  _token_size := default default_token_size token_size;
                  _freeze := default false freeze;
                  _smi_tkz := plain |} in
  _tokens self = _tokens (_update_tokens self0 reserved)
  ∧ _token_idx self = _token_idx (_update_tokens self0 reserved)
  ∧ _token_size self = default default_token_size token_size
  ∧ _freeze self = default false freeze.
Proof.
  unfold __init__. intros H.
  destruct (match spe_codes with Some _ => _ | None => _ end) as [smi [[]|e]];
    cbn in H; [| done].
  injection H as <-. cbn [_tokens _token_idx _token_size _freeze].
  by rewrite update_tokens_token_size, update_tokens_freeze.
Qed.

(** Without [freeze] and with room for them, the reserved tokens take the
    identifiers [0..5]. *)
Lemma init_reserved token_size dropout spe_codes spe_merges self :
  __init__ token_size (Some false) dropout spe_codes spe_merges = Py.Ok self →
  (6 <= default default_token_size token_size)%Z →
  _tokens self = reserved
  ∧ ∀ k token, reserved !! k = Some token → _token_idx self !! token = Some k.
Proof.
  intros Hinit Hsize. apply init_vocabulary in Hinit as (-> & -> & _ & _).
  cbn [default]. unfold _update_tokens. cbn [_freeze].
  set (N := default default_token_size token_size) in *. clearbody N.
  unfold reserved, register. cbn -[Z.leb Z.of_nat].
  repeat (rewrite lookup_empty || (rewrite lookup_insert_ne by done)).
  repeat match goal with
         | |- context [(N <=? ?m)%Z] =>
             destruct (Z.leb_spec N m); [lia |]; cbn -[Z.leb Z.of_nat];
             repeat (rewrite lookup_empty || (rewrite lookup_insert_ne by done))
         end.
  split; [done |].
  intros k token Hk.
  do 6 (destruct k as [|k]; [injection Hk as <-; by simplify_map_eq |]).
  done.
Qed.

(** C2 (the code departs from it). Evaluation of the constructor with
    [freeze=True]: [_update_tokens(self.reserved)] returns at once, so no
    reserved token is registered and the vocabulary is empty; identifier 1
    is not [unk]. *)
Theorem frozen_construction_registers_nothing token_size dropout spe_codes spe_merges self :
  __init__ token_size (Some true) dropout spe_codes spe_merges = Py.Ok self →
  _tokens self = [] ∧ _token_idx self = ∅
  ∧ __getitem__ self (Int 1) = Py.Raise Py.IndexError.
Proof.
  intros Hinit. apply init_vocabulary in Hinit as (Htokens & Hidx & _ & _).
  cbn in Htokens, Hidx. unfold __getitem__. rewrite Htokens. done.
Qed.

Lemma frozen_construction_registers_nothing_witness :
  (∃ self, __init__ None (Some true) None None None = Py.Ok self)
  ∧ ∀ self, __init__ None (Some true) None None None = Py.Ok self →
            _tokens self = [] ∧ _token_idx self = ∅
            ∧ __getitem__ self (Int 1) = Py.Raise Py.IndexError.
Proof.
  split; [eexists; vm_compute; reflexivity |].
  intros self. apply (frozen_construction_registers_nothing None None None None).
Defined.

(** [idOf] where [unk] is registered: the identifier of the token, or
    that of [unk]. *)
Lemma idOf_total self token u :
  _token_idx self !! unk = Some u →
  __getitem__ self (Str token)
  = Py.Ok (Int (Z.of_nat (default u (_token_idx self !! token)))).
Proof. intros Hu. cbn. by rewrite Hu. Qed.

(** C6 (the code departs from it). Evaluation of [__getitem__] on a string
    for an object constructed with [freeze=True]: [unk] is not registered,
    the default of [dict.get] is [self._token_idx[self.unk]], and the
    lookup raises [KeyError] for every token. *)
Theorem idOf_raises_when_constructed_frozen token_size dropout spe_codes spe_merges self token :
  __init__ token_size (Some true) dropout spe_codes spe_merges = Py.Ok self →
  __getitem__ self (Str token) = Py.Raise (Py.KeyError "<unk>").
Proof.
  intros Hinit. apply init_vocabulary in Hinit as (_ & Hidx & _ & _).
  cbn in Hidx. cbn. rewrite Hidx, lookup_empty. done.
Qed.

Lemma idOf_raises_when_constructed_frozen_witness :
  (∃ self, __init__ None (Some true) None None None = Py.Ok self)
  ∧ ∀ self, __init__ None (Some true) None None None = Py.Ok self →
            __getitem__ self (Str "C") = Py.Raise (Py.KeyError "<unk>").
Proof.
  split; [eexists; vm_compute; reflexivity |].
  intros self. apply (idOf_raises_when_constructed_frozen None None None None).
Defined.

End Construction.

(** ** The merge engine: short-circuit, dropout, overlapping pairs *)

Section Engine.
Import SmilesTokenizer.
Implicit Types (self : SmilesTokenizer.t) (g : nat → Q) (tokens : list string).

(** C5. For a one-character input, [SmilesTokenizer.__call__] returns the
    input as its only token, whatever the dropout, the merge table and the
    exclusive set; the generator is left as it was, and the character is
    returned even where the splitter would have dropped it. *)
Theorem single_character_short_circuit self g (smiles : string) (st : nat) :
  String.length smiles = 1 → __call__ self g smiles st = Some ([smiles], st).
Proof. intros Hlen. unfold __call__. by rewrite Hlen. Qed.

Lemma single_character_short_circuit_witness :
  String.length "x" = 1 ∧ __call__ plain half "x" 0 = Some (["x"], 0).
Proof.
  split; [reflexivity |]. apply (single_character_short_circuit plain half "x" 0).
  reflexivity.
Defined.

Lemma undropped_zero self g st :
  (dropout self == 0)%Q → undropped self g st = (true, st).
Proof. intros Hd. unfold undropped. by rewrite (proj2 (Qeq_bool_iff _ _) Hd). Qed.

Lemma undropped_above_one self g st :
  (1 < dropout self)%Q → (0 <= g st < 1)%Q → undropped self g st = (false, S st).
Proof.
  intros Hd [_ Hr]. unfold undropped, Py.random_random.
  destruct (Qeq_bool (dropout self) 0) eqn:Hz.
  { apply Qeq_bool_iff in Hz. rewrite Hz in Hd.
    destruct (Qlt_not_le _ _ Hd). discriminate. }
  rewrite (proj2 (Qle_bool_iff (g st) (dropout self))); [done |].
  apply Qlt_le_weak. by apply Qlt_trans with 1%Q.
Qed.

(** With a dropout above one no pair is a candidate. *)
Lemma candidates_above_one self g ips st :
  (1 < dropout self)%Q → (∀ n, 0 <= g n < 1)%Q →
  candidates self g ips st = ([], length ips + st).
Proof.
  intros Hd Hg. revert st. induction ips as [|[i pr] rest IH]; intros st; [done |].
  cbn [candidates]. rewrite undropped_above_one by done.
  rewrite IH. cbn [length]. f_equal. lia.
Qed.

Lemma merge_loop_above_one fuel self g tokens st :
  (1 < dropout self)%Q → (∀ n, 0 <= g n < 1)%Q →
  ∃ st', merge_loop fuel self g tokens st = Some (tokens, st').
Proof.
  intros Hd Hg.
  destruct fuel; cbn [merge_loop]; (destruct (length tokens <=? 1); [by eexists |]);
    rewrite candidates_above_one by done; by eexists.
Qed.

(** C4. Tokens [[x, x, x]], the pair [(x, x)] at rank 0, dropout 0: the
    pass that merges [(x, x)] accepts both occurrences, merges the one at
    position 0 and skips the one at position 1, which starts inside the
    merged span; it yields [[xx, x]].  With no merge for [(xx, x)] in the
    table this is what the engine returns. *)
Theorem overlapping_pair_skipped self g (x : string) (st : nat) :
  bpe_codes self !! [x; x] = Some 0 → (dropout self == 0)%Q →
  let pairs := [(0, 0, [x; x]); (0, 1, [x; x])] in
  candidates self g (Py.enumerate (adjacent [x; x; x])) st = (pairs, st)
  ∧ merge_pass [x; x; x] (0, 0, [x; x]) [(0, 1, [x; x])] = [x ++ x; x]
  ∧ (bpe_codes self !! [x ++ x; x] = None →
     merge_loop (length [x; x; x]) self g [x; x; x] st = Some ([x ++ x; x], st)).
Proof.
  intros Hrank Hd pairs.
  assert (Hcand : candidates self g (Py.enumerate (adjacent [x; x; x])) st = (pairs, st)).
  { cbn [Py.enumerate adjacent drop zip_with imap candidates compose].
    rewrite !undropped_zero by done. by rewrite Hrank. }
  assert (Hpass : merge_pass [x; x; x] (0, 0, [x; x]) [(0, 1, [x; x])] = [x ++ x; x]).
  { unfold merge_pass, min. cbn [foldl triple_ltb Nat.ltb Nat.leb Nat.eqb orb andb snd].
    cbn [omap list_omap]. rewrite !decide_True by done.
    cbn [merge Nat.ltb Nat.leb Py.slice Nat.sub Nat.add take drop app].
    by rewrite join_pair. }
  split; [done |]. split; [done |].
  intros Hnone. cbn [length merge_loop Nat.leb].
  rewrite Hcand. unfold pairs. rewrite Hpass.
  cbn [length merge_loop Nat.leb].
  cbn [Py.enumerate adjacent drop zip_with imap candidates compose].
  rewrite undropped_zero by done. by rewrite Hnone.
Qed.

Lemma overlapping_pair_skipped_witness :
  let self := (__init__ (Some ["C C"]) 0 (-1) None).1 in
  bpe_codes self !! ["C"; "C"] = Some 0
  ∧ merge_loop 3 self half ["C"; "C"; "C"] 0 = Some (["CC"; "C"], 0).
Proof.
  intros self.
  assert (Hrank : bpe_codes self !! ["C"; "C"] = Some 0) by (vm_compute; reflexivity).
  split; [exact Hrank |].
  apply (overlapping_pair_skipped self half "C" 0 Hrank); vm_compute; reflexivity.
Defined.

Example overlapping_pair_from_text :
  __call__ (__init__ (Some ["C C"]) 0 (-1) None).1 half "CCC" 0 = Some (["CC"; "C"], 0).
Proof. vm_compute. reflexivity. Qed.

End Engine.

(** ** Loading the merge table *)

Section MergeTable.
Import SmilesTokenizer.

(** The retained lines are the first lines of the file. *)
Lemma read_codes_from (f : list string) (merges : Z) (k : nat) :
  omap (λ '(n, item),
          if bool_decide ((Z.of_nat n < merges)%Z ∨ merges = (-1)%Z)
          then Some (fields item) else None)
       (imap (λ n, pair (k + n)) f)
  = fields <$> take (if decide (merges = (-1)%Z) then length f else Z.to_nat merges - k) f.
Proof.
  revert k. induction f as [|line f IH]; intros k.
  { by rewrite take_nil. }
  cbn [imap omap list_omap].
  rewrite (imap_ext _ (λ n, pair (S k + n))) by (intros; cbn; f_equal; lia).
  change (list_omap _ _ ?F ?l) with (omap F l). rewrite IH.
  destruct (decide (merges = (-1)%Z)) as [->|Hm].
  - rewrite bool_decide_eq_true_2 by (by right). done.
  - case_bool_decide as Hk.
    + destruct Hk as [Hk|]; [| done].
      replace (Z.to_nat merges - k) with (S (Z.to_nat merges - S k)) by lia. done.
    + replace (Z.to_nat merges - k) with 0 by lia.
      replace (Z.to_nat merges - S k) with 0 by lia. by rewrite !take_0.
Qed.

Lemma read_codes_prefix (f : list string) (merges : Z) :
  read_codes f merges
  = fields <$> take (if decide (merges = (-1)%Z) then length f else Z.to_nat merges) f.
Proof.
  unfold read_codes, Py.enumerate.
  rewrite (imap_ext _ (λ n, pair (0 + n))) by done.
  etrans; [exact (read_codes_from f merges 0) | by rewrite Nat.sub_0_r].
Qed.

Lemma read_codes_lookup (f : list string) (merges : Z) (i : nat) (item : list string) :
  read_codes f merges !! i = Some item
  ↔ ∃ line, f !! i = Some line ∧ retained merges i ∧ item = fields line.
Proof.
  rewrite read_codes_prefix, list_lookup_fmap, fmap_Some. unfold retained.
  split.
  - intros (line & Hline & ->). apply lookup_take_Some in Hline as [Hline Hi].
    exists line. split; [done |]. split; [| done].
    destruct (decide (merges = (-1)%Z)); [by right | left; lia].
  - intros (line & Hline & Hret & ->). exists line. split; [| done].
    apply lookup_take_Some. split; [done |].
    destruct (decide (merges = (-1)%Z)); [by eapply lookup_lt_Some | lia].
Qed.

(** The check stops at the first tuple that has not two fields. *)
Lemma check_codes_from (codes : list (list string)) (k : nat) :
  check_codes (imap (λ n, pair (k + n)) codes)
  = match list_find invalid codes with
    | Some (i, _) => Py.Raise (Py.RuntimeError (message (k + i)))
    | None => Py.Ok ()
    end.
Proof.
  revert k. induction codes as [|item codes IH]; intros k; [done |].
  cbn [imap check_codes list_find].
  rewrite (imap_ext _ (λ n, pair (S k + n))) by (intros; cbn; f_equal; lia).
  rewrite IH. unfold invalid.
  case_bool_decide as Hitem.
  - case_decide; [| done]. by rewrite Nat.add_0_r.
  - case_decide; [done |].
    destruct (list_find _ codes) as [[i x]|]; [| done].
    cbn. do 3 f_equal. lia.
Qed.

Lemma check_codes_enumerate (codes : list (list string)) :
  check_codes (Py.enumerate codes)
  = match list_find invalid codes with
    | Some (i, _) => Py.Raise (Py.RuntimeError (message i))
    | None => Py.Ok ()
    end.
Proof.
  unfold Py.enumerate. rewrite (imap_ext _ (λ n, pair (0 + n))) by done.
  apply check_codes_from.
Qed.

(** C8. If a retained line of the merge-table file does not split into
    exactly two fields, the constructor raises [RuntimeError] with the
    message "Invalid BPE code at line: k", [k] being the number (from 0) of
    the first such line of the file, and [bpe_codes] is still the empty
    dictionary: the table is not partially constructed. *)
Theorem malformed_line_aborts_load (f : list string) (dropout : Q) (merges : Z)
    (exclusive_tokens : option (list string)) (i : nat) (line : string) :
  f !! i = Some line → retained merges i → invalid (fields line) →
  ∃ k offending,
    k ≤ i ∧ f !! k = Some offending ∧ invalid (fields offending)
    ∧ (∀ j earlier, j < k → f !! j = Some earlier → length (fields earlier) = 2)
    ∧ (__init__ (Some f) dropout merges exclusive_tokens).2
      = Py.Raise (Py.RuntimeError (message k))
    ∧ bpe_codes (__init__ (Some f) dropout merges exclusive_tokens).1 = ∅.
Proof.
  intros Hline Hret Hbad.
  assert (Hitem : read_codes f merges !! i = Some (fields line)).
  { apply read_codes_lookup. by exists line. }
  destruct (list_find invalid (read_codes f merges)) as [[k item]|] eqn:Hfind.
  2:{ apply list_find_None in Hfind. rewrite Forall_lookup in Hfind.
      by destruct (Hfind i _ Hitem). }
  apply list_find_Some in Hfind as Hk. destruct Hk as (Hk & Hkbad & Hfirst).
  apply read_codes_lookup in Hk as (offending & Hoff & Hkret & ->).
  assert (k ≤ i).
  { destruct (decide (k ≤ i)); [done |]. destruct (Hfirst i _ Hitem); [lia | done]. }
  exists k, offending. split; [done |]. split; [done |]. split; [done |].
  split.
  { intros j earlier Hj Hearlier.
    assert (Hjitem : read_codes f merges !! j = Some (fields earlier)).
    { apply read_codes_lookup. exists earlier. split; [done |]. split; [| done].
      unfold retained in *. destruct Hkret; [left; lia | by right]. }
    specialize (Hfirst j _ Hjitem Hj). unfold invalid in Hfirst.
    by destruct (decide (length (fields earlier) = 2)). }
  unfold __init__. rewrite check_codes_enumerate, Hfind. done.
Qed.

Lemma malformed_line_aborts_load_witness :
  let f := ["C C"; "CC C x"; "= O"; "x"] in
  ∃ k offending,
    k ≤ 3 ∧ f !! k = Some offending ∧ invalid (fields offending)
    ∧ (∀ j earlier, j < k → f !! j = Some earlier → length (fields earlier) = 2)
    ∧ (__init__ (Some f) 0 (-1) None).2 = Py.Raise (Py.RuntimeError (message k))
    ∧ bpe_codes (__init__ (Some f) 0 (-1) None).1 = ∅.
Proof.
  apply (malformed_line_aborts_load _ 0 (-1) None 3 "x").
  - reflexivity.
  - right. reflexivity.
  - vm_compute. discriminate.
Defined.

(** A table whose retained lines all have two fields is loaded. *)
Lemma well_formed_table_loads (f : list string) (dropout : Q) (merges : Z)
    (exclusive_tokens : option (list string)) :
  Forall (λ item, length item = 2) (read_codes f merges) →
  __init__ (Some f) dropout merges exclusive_tokens
  = ({| smi_tkz := {| SmilesAtomwiseTokenizer._exclusive := exclusive_tokens |};
        dropout := dropout;
        bpe_codes := codes_dict (read_codes f merges) |}, Py.Ok ()).
Proof.
  intros Hall. unfold __init__. rewrite check_codes_enumerate.
  destruct (list_find invalid (read_codes f merges)) as [[k item]|] eqn:Hfind; [| done].
  apply list_find_Some in Hfind as (Hk & Hbad & _).
  rewrite Forall_lookup in Hall. by destruct Hbad, (Hall k item Hk).
Qed.

Lemma init_fields (codes_path : option (list string)) (d : Q) (merges : Z)
    (exclusive_tokens : option (list string)) :
  dropout (__init__ codes_path d merges exclusive_tokens).1 = d
  ∧ smi_tkz (__init__ codes_path d merges exclusive_tokens).1
    = {| SmilesAtomwiseTokenizer._exclusive := exclusive_tokens |}.
Proof.
  unfold __init__. destruct codes_path as [f|]; [| done].
  by destruct (check_codes _).
Qed.

End MergeTable.

(** ** The default dropout *)

Section DefaultDropout.
Import MoltxTokenizer.

Lemma init_smi_tkz token_size freeze dropout spe_codes spe_merges self :
  __init__ token_size freeze dropout spe_codes spe_merges = Py.Ok self →
  SmilesTokenizer.dropout (_smi_tkz self) = default default_dropout dropout
  ∧ SmilesTokenizer.smi_tkz (_smi_tkz self)
    = {| SmilesAtomwiseTokenizer._exclusive := None |}.
Proof.
  unfold __init__. intros H.
  destruct spe_codes as [f|].
  - pose proof (init_fields (Some f) (default default_dropout dropout)
                  (default (-1)%Z spe_merges) None) as Hf.
    destruct (SmilesTokenizer.__init__ _ _ _ _) as [smi [[]|e]]; [| done].
    injection H as <-. exact Hf.
  - pose proof (init_fields None (default default_dropout dropout) (-1)%Z None) as Hf.
    destruct (SmilesTokenizer.__init__ _ _ _ _) as [smi [[]|e]]; [| done].
    injection H as <-. exact Hf.
Qed.

(** C9. A [MoltxTokenizer] constructed without [dropout] has the dropout
    1.000000001, which is above one.  The draws of [random.random()] lie
    in [0, 1), so none exceeds it: no pair is accepted, whatever the merge
    table, and a text of more than one character (or the empty text) comes
    back from its [SmilesTokenizer] as the atomic tokens of the splitter. *)
Theorem default_dropout_never_merges (g : nat → Q) token_size freeze spe_codes spe_merges
    self :
  (∀ n, 0 <= g n < 1)%Q →
  __init__ token_size freeze None spe_codes spe_merges = Py.Ok self →
  SmilesTokenizer.dropout (_smi_tkz self) = default_dropout
  ∧ (1 < default_dropout)%Q
  ∧ ∀ smiles st, String.length smiles ≠ 1 →
      ∃ st', SmilesTokenizer.__call__ (_smi_tkz self) g smiles st
             = Some (Re.findall SmilesAtomwiseTokenizer.REGEX smiles, st').
Proof.
  intros Hg Hinit. apply init_smi_tkz in Hinit as [Hd Hex]. cbn [default] in Hd.
  split; [done |]. split; [reflexivity |].
  intros smiles st Hlen. unfold SmilesTokenizer.__call__.
  destruct (Nat.eqb_spec (String.length smiles) 1); [done |].
  rewrite Hex. unfold SmilesAtomwiseTokenizer.__call__. cbn [SmilesAtomwiseTokenizer.exclusive_set SmilesAtomwiseTokenizer._exclusive].
  apply merge_loop_above_one; [| done]. rewrite Hd. reflexivity.
Qed.

Lemma default_dropout_never_merges_witness :
  let codes := Some ["C C"; "CC C"] in
  (∀ n, 0 <= half n < 1)%Q
  ∧ (∃ self, __init__ None None None codes None = Py.Ok self)
  ∧ ∀ self, __init__ None None None codes None = Py.Ok self →
      ∃ st', SmilesTokenizer.__call__ (_smi_tkz self) half "CCC" 0
             = Some (["C"; "C"; "C"], st').
Proof.
  intros codes.
  assert (Hhalf : (∀ n, 0 <= half n < 1)%Q) by (intros n; split; vm_compute; discriminate || reflexivity).
  split; [exact Hhalf |].
  split; [eexists; vm_compute; reflexivity |].
  intros self Hinit.
  destruct (default_dropout_never_merges half None None codes None self Hhalf Hinit)
    as (_ & _ & Hcall).
  apply (Hcall "CCC" 0). vm_compute. discriminate.
Defined.

End DefaultDropout.

(** ** Merging preserves the text *)

Section Preservation.
Import SmilesTokenizer.
Implicit Types (self : SmilesTokenizer.t) (g : nat → Q) (tokens : list string).

Lemma adjacent_occurs tokens :
  Forall (λ '(i, pr), ∃ a b, pr = [a; b] ∧ occurs tokens a b i)
         (Py.enumerate (adjacent tokens)).
Proof.
  apply Forall_lookup. intros k [i pr] Hk.
  unfold Py.enumerate in Hk. rewrite list_lookup_imap in Hk.
  apply fmap_Some in Hk as (pr' & Hpr & [= -> ->]).
  unfold adjacent in Hpr. apply lookup_zip_with_Some in Hpr as (a & b & -> & Ha & Hb).
  rewrite lookup_drop in Hb. exists a, b. by repeat split.
Qed.

Lemma candidates_Forall (P : nat → list string → Prop) self g ips st :
  Forall (λ '(i, pr), P i pr) ips →
  Forall (λ '(_, i, pr), P i pr) (candidates self g ips st).1.
Proof.
  intros Hips. revert st. induction Hips as [|[i pr] rest Hi _ IH]; intros st.
  { constructor. }
  cbn [candidates]. destruct (undropped self g st) as [keep st1].
  specialize (IH st1). destruct (candidates self g rest st1) as [ps st2].
  destruct (if keep then _ else _); [by constructor | done].
Qed.

Lemma min_elem p ps : min p ps ∈ p :: ps.
Proof.
  unfold min. revert p. induction ps as [|y ps IH]; intros p.
  { apply elem_of_cons. by left. }
  cbn [foldl]. pose proof (IH (if triple_ltb y p then y else p)) as Hm.
  rewrite !elem_of_cons in *. destruct (triple_ltb y p); tauto.
Qed.

Lemma merge_join tokens (a b : string) positions i new_tokens :
  Forall (occurs tokens a b) positions →
  Py.join (merge tokens (a ++ b) positions i new_tokens)
  = Py.join new_tokens ++ Py.join (drop i tokens).
Proof.
  intros Hpos. revert i new_tokens.
  induction Hpos as [|j rest [Ha Hb] _ IH]; intros i new_tokens; cbn [merge].
  { apply join_app. }
  destruct (Nat.ltb_spec j i) as [Hlt|Hge]; [apply IH |].
  rewrite IH, !join_app, join_cons. unfold Py.slice.
  rewrite <- (take_drop (j - i) (drop i tokens)) at 2.
  rewrite drop_drop. replace (i + (j - i)) with j by lia.
  rewrite (drop_S _ _ _ Ha), (drop_S _ _ _ Hb).
  replace (j + 2) with (S (S j)) by lia.
  rewrite join_app, !join_cons. cbn [Py.join foldr].
  by rewrite !append_assoc.
Qed.

Lemma merge_length tokens bigram positions i new_tokens :
  i ≤ length tokens → Forall (λ j, S j < length tokens) positions →
  length (merge tokens bigram positions i new_tokens)
  ≤ length new_tokens + (length tokens - i).
Proof.
  intros Hi Hpos. revert i new_tokens Hi.
  induction Hpos as [|j rest Hj _ IH]; intros i new_tokens Hi; cbn [merge].
  { rewrite length_app, length_drop. lia. }
  destruct (Nat.ltb_spec j i) as [Hlt|Hge]; [by apply IH |].
  etrans; [apply IH; lia |]. unfold Py.slice.
  rewrite !length_app, length_take, length_drop. cbn [length]. lia.
Qed.

(** A pass on candidates that are pairs of adjacent tokens keeps the
    text and removes at least one token. *)
Lemma merge_pass_spec tokens p ps :
  Forall (λ '(_, i, pr), ∃ a b, pr = [a; b] ∧ occurs tokens a b i) (p :: ps) →
  Py.join (merge_pass tokens p ps) = Py.join tokens
  ∧ length (merge_pass tokens p ps) < length tokens.
Proof.
  intros Hall. rewrite Forall_forall in Hall.
  pose proof (min_elem p ps) as Hmin. unfold merge_pass.
  destruct (min p ps) as [[r0 i0] pr0] eqn:Emin.
  destruct (Hall _ Hmin) as (a & b & -> & Hocc0). cbn [snd].
  set (positions := omap _ (p :: ps)).
  assert (Hpos : Forall (occurs tokens a b) positions).
  { apply Forall_forall. intros j Hj.
    apply list_elem_of_omap in Hj as ([[r i] pr] & Hin & Hf).
    destruct (Hall _ Hin) as (a' & b' & -> & Hocc).
    case_decide; by simplify_eq. }
  assert (Hi0 : i0 ∈ positions).
  { apply list_elem_of_omap. exists (r0, i0, [a; b]). split; [done |].
    by rewrite decide_True. }
  rewrite join_pair. split.
  - by rewrite merge_join.
  - destruct positions as [|j rest]; [by apply elem_of_nil in Hi0 |].
    apply Forall_cons in Hpos as [[Ha Hb] Hrest].
    apply lookup_lt_Some in Hb as Hj.
    cbn [merge Nat.ltb Nat.leb].
    eapply Nat.le_lt_trans.
    + apply merge_length; [lia |].
      eapply Forall_impl; [exact Hrest |]. intros k [_ Hk]. by eapply lookup_lt_Some.
    + unfold Py.slice. rewrite !length_app, length_take, length_drop. cbn [length]. lia.
Qed.

(** The loop returns within [len(tokens)] passes, and what it returns has
    the text of what it started from. *)
Lemma merge_loop_spec fuel self g tokens st :
  length tokens ≤ fuel →
  ∃ merged st', merge_loop fuel self g tokens st = Some (merged, st')
                ∧ Py.join merged = Py.join tokens.
Proof.
  revert tokens st. induction fuel as [|fuel IH]; intros tokens st Hfuel.
  { exists tokens, st. cbn [merge_loop].
    destruct (Nat.leb_spec (length tokens) 1); [done | lia]. }
  cbn [merge_loop]. destruct (Nat.leb_spec (length tokens) 1); [by eexists _, _ |].
  pose proof (candidates_Forall _ self g _ st (adjacent_occurs tokens)) as Hall.
  destruct (candidates self g (Py.enumerate (adjacent tokens)) st) as [[|p ps] st1];
    [by eexists _, _ |].
  destruct (merge_pass_spec tokens p ps Hall) as [Hjoin Hlen].
  destruct (IH (merge_pass tokens p ps) st1) as (merged & st' & Hloop & Hmerged); [lia |].
  exists merged, st'. split; [done |]. by rewrite Hmerged.
Qed.

End Preservation.

(** ** The text of the tokens *)

Section KeptText.
Import SmilesTokenizer.
Implicit Types (self : SmilesTokenizer.t) (g : nat → Q).

Lemma findall_from_S fuel r s :
  Re.findall_from (S fuel) r s
  = match Re.match_len r s with
    | Some (S n) => Py.str_take (S n) s :: Re.findall_from fuel r (Py.str_drop (S n) s)
    | Some 0 => "" :: match s with
                      | String _ s' => Re.findall_from fuel r s'
                      | EmptyString => []
                      end
    | None => match s with
              | String _ s' => Re.findall_from fuel r s'
              | EmptyString => []
              end
    end.
Proof. reflexivity. Qed.

Lemma kept_from_S fuel c s :
  Grammar.kept_from (S fuel) (String c s)
  = match Re.match_len SmilesAtomwiseTokenizer.REGEX (String c s) with
    | Some (S n) =>
        Py.str_take (S n) (String c s)
        ++ Grammar.kept_from fuel (Py.str_drop (S n) (String c s))
    | _ => Grammar.kept_from fuel s
    end.
Proof. reflexivity. Qed.

Lemma nothing_matches_empty : Re.match_len SmilesAtomwiseTokenizer.REGEX "" = None.
Proof. vm_compute. reflexivity. Qed.

(** The tokens of the splitter spell the text it keeps. *)
Lemma findall_from_join fuel s :
  String.length s ≤ fuel →
  Py.join (Re.findall_from (S fuel) SmilesAtomwiseTokenizer.REGEX s)
  = Grammar.kept_from fuel s.
Proof.
  revert s. induction fuel as [|fuel IH]; intros s Hlen.
  { destruct s; [| cbn in Hlen; lia].
    rewrite findall_from_S, nothing_matches_empty. done. }
  destruct s as [|c s].
  { rewrite findall_from_S, nothing_matches_empty. done. }
  rewrite findall_from_S, kept_from_S. cbn [String.length] in Hlen.
  destruct (Re.match_len SmilesAtomwiseTokenizer.REGEX (String c s)) as [[|n]|].
  - rewrite join_cons, IH by lia. done.
  - rewrite join_cons, IH; [done |].
    rewrite length_str_drop. cbn [String.length]. lia.
  - apply IH. lia.
Qed.

Lemma findall_join s :
  Py.join (Re.findall SmilesAtomwiseTokenizer.REGEX s) = Grammar.kept s.
Proof. by apply findall_from_join. Qed.

(** Whatever the exclusive set, a text of length other than one is
    tokenized, and merging leaves the text of the splitter's tokens as it
    is. *)
Lemma call_preserves_split_text self g smiles st :
  String.length smiles ≠ 1 →
  ∃ tokens st',
    __call__ self g smiles st = Some (tokens, st')
    ∧ Py.join tokens = Py.join (SmilesAtomwiseTokenizer.__call__ (smi_tkz self) smiles).
Proof.
  intros Hlen. unfold __call__.
  destruct (Nat.eqb_spec (String.length smiles) 1); [done |].
  by apply merge_loop_spec.
Qed.

(** C1, as the code has it. For an input whose length is not one and a
    tokenizer without exclusive set, [SmilesTokenizer.__call__] returns,
    for every dropout, merge table and sequence of draws, tokens whose
    concatenation is the input with the characters that match no
    alternative of the grammar removed. *)
Theorem merging_preserves_kept_text self g smiles st :
  String.length smiles ≠ 1 →
  SmilesAtomwiseTokenizer.exclusive_set (smi_tkz self) = None →
  ∃ tokens st',
    __call__ self g smiles st = Some (tokens, st')
    ∧ Py.join tokens = Grammar.kept smiles.
Proof.
  intros Hlen Hex.
  destruct (call_preserves_split_text self g smiles st Hlen) as (tokens & st' & Hcall & Hjoin).
  exists tokens, st'. split; [done |].
  rewrite Hjoin. unfold SmilesAtomwiseTokenizer.__call__. rewrite Hex.
  apply findall_join.
Qed.

Lemma merging_preserves_kept_text_witness :
  let self := (__init__ (Some ["C C"; "CC C"; "= O"]) (1 # 3) (-1) None).1 in
  ∃ tokens st',
    __call__ self half "CCzC(=O)[nH]q" 0 = Some (tokens, st')
    ∧ Py.join tokens = "CCC(=O)[nH]".
Proof.
  intros self.
  apply (merging_preserves_kept_text self half "CCzC(=O)[nH]q" 0).
  - vm_compute. discriminate.
  - reflexivity.
Defined.

(** C1 as stated fails on a one-character input outside the grammar: the
    character is returned as a token, where the claim has it removed. *)
Lemma one_character_outside_grammar_is_kept :
  __call__ plain half "x" 0 = Some (["x"], 0)
  ∧ Grammar.kept "x" = ""
  ∧ Py.join ["x"] ≠ Grammar.kept "x".
Proof. vm_compute. repeat split; discriminate. Qed.

End KeptText.

(** ** Bounds on matches *)

Section Matches.
Import Re.

Lemma plus_ends_bounds p s n : n ∈ plus_ends p s → 1 ≤ n ≤ String.length s.
Proof.
  revert n. induction s as [|c s IH]; intros n; cbn [plus_ends String.length].
  { by intros ?%elem_of_nil. }
  destruct (p c); [| by intros ?%elem_of_nil].
  rewrite elem_of_app, list_elem_of_fmap, list_elem_of_singleton.
  intros [(m & -> & Hm)| ->]; [apply IH in Hm |]; lia.
Qed.

Lemma ends_bounds r s n : n ∈ ends r s → min_len r ≤ n ≤ String.length s.
Proof.
  revert s n. induction r as [|c|p|r1 IH1 r2 IH2|r1 IH1 r2 IH2|r IH|p];
    intros s n; cbn [ends min_len].
  - rewrite list_elem_of_singleton. intros ->. lia.
  - destruct s as [|a s]; [by intros ?%elem_of_nil |].
    case_bool_decide; [| by intros ?%elem_of_nil].
    rewrite list_elem_of_singleton. intros ->. cbn. lia.
  - destruct s as [|a s]; [by intros ?%elem_of_nil |].
    destruct (p a); [| by intros ?%elem_of_nil].
    rewrite list_elem_of_singleton. intros ->. cbn. lia.
  - rewrite list_elem_of_bind. intros (n1 & Hn & Hn1).
    apply list_elem_of_fmap in Hn as (n2 & -> & Hn2).
    apply IH1 in Hn1. apply IH2 in Hn2. rewrite length_str_drop in Hn2. lia.
  - rewrite elem_of_app. intros [Hn|Hn]; [apply IH1 in Hn | apply IH2 in Hn]; lia.
  - rewrite elem_of_app, list_elem_of_singleton.
    intros [Hn| ->]; [apply IH in Hn |]; lia.
  - apply plus_ends_bounds.
Qed.

Lemma search_bounds r s start len :
  search r s = Some (start, len) → min_len r ≤ len ∧ start + len ≤ String.length s.
Proof.
  revert start. induction s as [|c s IH]; intros start; cbn [search].
  - destruct (match_len r "") as [n|] eqn:Hn; [| done].
    intros [= <- <-]. apply head_Some_elem_of, ends_bounds in Hn. lia.
  - destruct (match_len r (String c s)) as [n|] eqn:Hn.
    + intros [= <- <-]. apply head_Some_elem_of, ends_bounds in Hn. lia.
    + destruct (search r s) as [[k n]|]; [| done].
      intros [= <- <-]. destruct (IH k eq_refl). cbn [String.length]. lia.
Qed.

End Matches.

(** ** The vocabulary: capacity and stable identifiers *)

Section Registration.
Import MoltxTokenizer.
Implicit Types (self : t) (g : nat → Q).

Lemma append_consistent self token :
  consistent self → _token_idx self !! token = None →
  consistent (set_vocabulary self (_tokens self ++ [token])
                (<[token := length (_tokens self)]> (_token_idx self))).
Proof.
  intros Hc Hnew t i. cbn [set_vocabulary _tokens _token_idx].
  rewrite lookup_snoc_Some. destruct (decide (t = token)) as [->|Hne].
  - rewrite lookup_insert_eq. split.
    + intros [= <-]. by right.
    + intros [[_ Hi]|[-> _]]; [| done].
      apply Hc in Hi. congruence.
  - rewrite lookup_insert_ne by done. rewrite (Hc t i). split.
    + intros Hi. left. split; [by eapply lookup_lt_Some | done].
    + intros [[_ Hi]|[_ ?]]; [done | congruence].
Qed.

Lemma register_spec self tokens :
  consistent self → within_capacity self →
  consistent (register self tokens)
  ∧ within_capacity (register self tokens)
  ∧ extends self (register self tokens).
Proof.
  unfold extends. revert self.
  induction tokens as [|token rest IH]; intros self Hc Hcap; [done |].
  cbn [register]. destruct (_token_idx self !! token) as [k|] eqn:Htoken; [by apply IH |].
  destruct (Z.leb_spec (_token_size self) (Z.of_nat (length (_tokens self)))) as [Hfull|Hroom];
    [done |].
  set (self1 := set_vocabulary self _ _).
  destruct (IH self1) as (Hc' & Hcap' & Hext').
  { by apply append_consistent. }
  { unfold within_capacity, __len__, self1. cbn [set_vocabulary _tokens _token_size].
    rewrite length_app. cbn [length]. lia. }
  split; [done |]. split; [done |].
  intros t i Hi. apply Hext'. unfold self1. cbn [set_vocabulary _token_idx].
  rewrite lookup_insert_ne; [done | congruence].
Qed.

Lemma update_tokens_spec self tokens :
  consistent self → within_capacity self →
  consistent (_update_tokens self tokens)
  ∧ within_capacity (_update_tokens self tokens)
  ∧ extends self (_update_tokens self tokens).
Proof.
  unfold extends. intros Hc Hcap. unfold _update_tokens.
  destruct (_freeze self); [done | by apply register_spec].
Qed.

Lemma load_spec self tokens :
  consistent self → within_capacity self →
  consistent (load self tokens)
  ∧ within_capacity (load self tokens)
  ∧ extends self (load self tokens)
  ∧ _token_size (load self tokens) = _token_size self.
Proof.
  unfold extends. intros Hc Hcap. unfold load, _load_tokens.
  destruct (update_tokens_spec (set_freeze self false) tokens) as (Hc' & Hcap' & Hext');
    [done | done |].
  split; [done |]. split; [done |]. split; [done |].
  cbn [set_freeze _token_size]. by rewrite update_tokens_token_size.
Qed.

(** [SmilesTokenizer.__call__] and [encode] return. *)
Lemma smiles_call_total (smi : SmilesTokenizer.t) g smiles st :
  is_Some (SmilesTokenizer.__call__ smi g smiles st).
Proof.
  destruct (decide (String.length smiles = 1)) as [Hone|Hlen].
  - unfold SmilesTokenizer.__call__. by rewrite Hone.
  - destruct (call_preserves_split_text smi g smiles st Hlen) as (tokens & st' & -> & _).
    done.
Qed.

Lemma tag_min_len : Re.min_len REGEX = 5.
Proof. reflexivity. Qed.

Lemma encode_from_total fuel self g s st :
  String.length s ≤ fuel → is_Some (encode_from fuel self g s st).
Proof.
  revert s st. induction fuel as [|fuel IH]; intros s st Hlen.
  - cbn [encode_from]. destruct (Re.search REGEX s) as [[start len]|] eqn:Hsearch.
    + apply search_bounds in Hsearch. rewrite tag_min_len in Hsearch. lia.
    + destruct (0 <? String.length s); [apply smiles_call_total | done].
  - cbn [encode_from]. destruct (Re.search REGEX s) as [[start len]|] eqn:Hsearch.
    + apply search_bounds in Hsearch. rewrite tag_min_len in Hsearch.
      assert (Hgap : is_Some (if 0 <? start
                              then SmilesTokenizer.__call__ (_smi_tkz self) g
                                     (Py.str_take start s) st
                              else Some ([], st))).
      { destruct (0 <? start); [apply smiles_call_total | done]. }
      destruct Hgap as [[gap st1] ->]. cbn.
      destruct (IH (Py.str_drop (start + len) s) st1) as [[rest st2] ->]; [| done].
      rewrite length_str_drop. lia.
    + destruct (0 <? String.length s); [apply smiles_call_total | done].
Qed.

Lemma call_spec self g smiles tokens_only st :
  consistent self → within_capacity self →
  ∃ self' st' out,
    __call__ self g smiles tokens_only st = Some (self', st', out)
    ∧ consistent self' ∧ within_capacity self' ∧ extends self self'
    ∧ _token_size self' = _token_size self.
Proof.
  unfold extends. intros Hc Hcap. unfold __call__, encode.
  destruct (encode_from_total (String.length smiles) self g smiles st) as [[tokens st'] ->];
    [done |].
  cbn. eexists _, _, _. split; [done |].
  destruct (update_tokens_spec self tokens Hc Hcap) as (? & ? & ?).
  by rewrite update_tokens_token_size.
Qed.

Lemma step_spec g self st c :
  consistent self → within_capacity self →
  ∃ self' st',
    step g (self, st) c = Some (self', st')
    ∧ consistent self' ∧ within_capacity self' ∧ extends self self'
    ∧ _token_size self' = _token_size self.
Proof.
  unfold extends. intros Hc Hcap.
  destruct c as [tokens|smiles tokens_only|tokens]; cbn [step fst snd].
  - destruct (update_tokens_spec self tokens Hc Hcap) as (? & ? & ?).
    eexists _, _. by rewrite update_tokens_token_size.
  - destruct (call_spec self g smiles tokens_only st Hc Hcap)
      as (self' & st' & out & -> & ? & ? & ? & ?).
    cbn. by eexists _, _.
  - destruct (load_spec self tokens Hc Hcap) as (? & ? & ? & ?). by eexists _, _.
Qed.

Lemma run_spec g self st cs :
  consistent self → within_capacity self →
  ∃ self' st',
    run g (self, st) cs = Some (self', st')
    ∧ consistent self' ∧ within_capacity self' ∧ extends self self'
    ∧ _token_size self' = _token_size self.
Proof.
  unfold extends. revert self st.
  induction cs as [|c cs IH]; intros self st Hc Hcap; cbn [run].
  { by eexists _, _. }
  destruct (step_spec g self st c Hc Hcap) as (self1 & st1 & -> & Hc1 & Hcap1 & Hext1 & Hsz1).
  cbn. destruct (IH self1 st1 Hc1 Hcap1) as (self2 & st2 & -> & Hc2 & Hcap2 & Hext2 & Hsz2).
  eexists _, _. split; [done |]. split; [done |]. split; [done |].
  split; [auto | congruence].
Qed.

Lemma init_spec token_size freeze dropout spe_codes spe_merges self :
  (0 <= default default_token_size token_size)%Z →
  __init__ token_size freeze dropout spe_codes spe_merges = Py.Ok self →
  consistent self ∧ within_capacity self.
Proof.
  intros Hsize Hinit.
  apply init_vocabulary in Hinit as (Htokens & Hidx & Hsz & _).
  set (self0 := {| _tokens := []; _token_idx := ∅;
                   _token_size := default default_token_size token_size;
                   _freeze := default false freeze; _smi_tkz := plain |}) in *.
  destruct (update_tokens_spec self0 reserved) as (Hc & Hcap & _).
  { intros token i. cbn. by rewrite lookup_empty, lookup_nil. }
  { unfold within_capacity. cbn. lia. }
  split.
  - intros token i. rewrite Htokens, Hidx. apply Hc.
  - unfold within_capacity, __len__ in *. rewrite Htokens, Hsz.
    by rewrite update_tokens_token_size in Hcap.
Qed.

(** C3. On a [MoltxTokenizer] constructed with a capacity [N >= 0], every
    sequence of calls of [_update_tokens], [__call__] and [load] runs to
    its end; at every point of it the vocabulary has at most [N] tokens,
    and an identifier assigned at some point is, at every later point,
    still the identifier of the same token and of no other. *)
Theorem vocabulary_bounded_and_stable g token_size freeze dropout spe_codes spe_merges
    self0 (st0 : nat) (earlier later : list registration) :
  let N := default default_token_size token_size in
  (0 <= N)%Z →
  __init__ token_size freeze dropout spe_codes spe_merges = Py.Ok self0 →
  ∃ self1 st1 self2 st2,
    run g (self0, st0) earlier = Some (self1, st1)
    ∧ run g (self1, st1) later = Some (self2, st2)
    ∧ _token_size self1 = N ∧ _token_size self2 = N
    ∧ (Z.of_nat (__len__ self1) <= N)%Z
    ∧ (Z.of_nat (__len__ self2) <= N)%Z
    ∧ keeps_identifiers self1 self2.
Proof.
  intros N HN Hinit.
  destruct (init_spec _ _ _ _ _ _ HN Hinit) as [Hc0 Hcap0].
  apply init_vocabulary in Hinit as (_ & _ & Hsz0 & _). fold N in Hsz0.
  destruct (run_spec g self0 st0 earlier Hc0 Hcap0)
    as (self1 & st1 & Hrun1 & Hc1 & Hcap1 & _ & Hsz1).
  destruct (run_spec g self1 st1 later Hc1 Hcap1)
    as (self2 & st2 & Hrun2 & Hc2 & Hcap2 & Hext2 & Hsz2).
  exists self1, st1, self2, st2.
  unfold within_capacity, extends in *.
  repeat (split; [done || congruence |]).
  intros token i Hi. apply Hext2 in Hi. split; [done |].
  split; [by apply Hc2 |].
  intros token' Hi'. apply Hc2 in Hi, Hi'. congruence.
Qed.

Lemma vocabulary_bounded_and_stable_witness :
  let earlier := [Call "<bos>CCO<eos>" false; Update ["N"; "O"]] in
  let later := [Load ["<pad>"; "S"; "P"; "F"]; Call "c1ccccc1Br" true] in
  (0 <= 9)%Z
  ∧ __init__ (Some 9%Z) None None None None = Py.Ok small
  ∧ ∃ self1 st1 self2 st2,
      run half (small, 0) earlier = Some (self1, st1)
      ∧ run half (self1, st1) later = Some (self2, st2)
      ∧ _token_size self1 = 9%Z ∧ _token_size self2 = 9%Z
      ∧ (Z.of_nat (__len__ self1) <= 9)%Z
      ∧ (Z.of_nat (__len__ self2) <= 9)%Z
      ∧ keeps_identifiers self1 self2.
Proof.
  intros earlier later.
  assert (Hinit : __init__ (Some 9%Z) None None None None = Py.Ok small)
    by (vm_compute; reflexivity).
  split; [lia |]. split; [exact Hinit |].
  apply (vocabulary_bounded_and_stable half (Some 9%Z) None None None None small 0
           earlier later); [cbn; lia | exact Hinit].
Defined.

End Registration.

(** * Further properties *)

(** ** The splitter *)

Section Splitter.
Import Re.

Lemma match_len_bounds r s n :
  match_len r s = Some n → min_len r ≤ n ≤ String.length s.
Proof. intros Hn. by apply head_Some_elem_of, ends_bounds in Hn. Qed.

Lemma str_take_nonempty n c s : Py.str_take (S n) (String c s) ≠ "".
Proof. done. Qed.

Lemma findall_from_nonempty fuel r s token :
  1 ≤ min_len r → token ∈ findall_from fuel r s → token ≠ "".
Proof.
  intros Hr. revert s. induction fuel as [|fuel IH]; intros s; cbn [findall_from].
  { by intros ?%elem_of_nil. }
  destruct (match_len r s) as [[|n]|] eqn:Hn.
  - apply match_len_bounds in Hn. lia.
  - apply match_len_bounds in Hn. destruct s as [|c s]; [cbn in Hn; lia |].
    intros [->|Hin]%elem_of_cons; [done | by eapply IH].
  - destruct s as [|c s]; [by intros ?%elem_of_nil | apply IH].
Qed.

Lemma findall_from_length fuel r s :
  1 ≤ min_len r → length (findall_from fuel r s) ≤ String.length s.
Proof.
  intros Hr. revert s. induction fuel as [|fuel IH]; intros s; cbn [findall_from].
  { cbn. lia. }
  destruct (match_len r s) as [[|n]|] eqn:Hn.
  - apply match_len_bounds in Hn. lia.
  - apply match_len_bounds in Hn. cbn [length].
    specialize (IH (Py.str_drop (S n) s)). rewrite length_str_drop in IH. lia.
  - destruct s as [|c s]; [cbn; lia |]. specialize (IH s). cbn [String.length]. lia.
Qed.

Lemma atom_min_len : min_len SmilesAtomwiseTokenizer.REGEX = 1.
Proof. reflexivity. Qed.

(** X1. The splitter emits no empty token and at most one token per
    character of its input, with or without an exclusive set. *)
Theorem splitter_tokens_nonempty (self : SmilesAtomwiseTokenizer.t) (smiles : string) :
  length (SmilesAtomwiseTokenizer.__call__ self smiles) ≤ String.length smiles
  ∧ ∀ token, token ∈ SmilesAtomwiseTokenizer.__call__ self smiles → token ≠ "".
Proof.
  unfold SmilesAtomwiseTokenizer.__call__, findall.
  pose proof (findall_from_length (S (String.length smiles))
                SmilesAtomwiseTokenizer.REGEX smiles) as Hlen.
  rewrite atom_min_len in Hlen.
  destruct (SmilesAtomwiseTokenizer.exclusive_set self) as [excl|].
  - rewrite length_fmap. split; [auto |].
    intros token (t & -> & Ht)%list_elem_of_fmap.
    destruct (_ && _); [done |].
    eapply findall_from_nonempty; [| exact Ht]. by rewrite atom_min_len.
  - split; [auto |]. intros token Ht.
    eapply findall_from_nonempty; [| exact Ht]. by rewrite atom_min_len.
Qed.



End Splitter.

(** ** The merge engine *)

Section EngineFurther.
Import SmilesTokenizer.
Implicit Types (self : SmilesTokenizer.t) (g : nat → Q) (tokens : list string).

Lemma candidates_zero self g ips st :
  (dropout self == 0)%Q →
  candidates self g ips st
  = (omap (λ '(i, pr), (λ rank, (rank, i, pr)) <$> bpe_codes self !! pr) ips, st).
Proof.
  intros Hd. induction ips as [|[i pr] rest IH]; [done |].
  cbn [candidates omap list_omap]. rewrite undropped_zero by done. rewrite IH.
  by destruct (bpe_codes self !! pr).
Qed.

Lemma merge_loop_zero fuel self g g' tokens st st' :
  (dropout self == 0)%Q →
  merge_loop fuel self g tokens st
  = (λ out, (out.1, st)) <$> merge_loop fuel self g' tokens st'.
Proof.
  intros Hd. revert tokens. induction fuel as [|fuel IH]; intros tokens;
    cbn [merge_loop]; (destruct (length tokens <=? 1); [done |]);
    rewrite !candidates_zero by done;
    (destruct (omap _ _) as [|p ps]; [done |]); [done | apply IH].
Qed.

(** X3. With dropout 0 the random generator is not consulted:
    [SmilesTokenizer.__call__] returns with the generator as it found it,
    and returns the same tokens for every generator. *)
Theorem zero_dropout_ignores_generator self g (smiles : string) (st : nat) :
  (dropout self == 0)%Q →
  ∃ tokens,
    __call__ self g smiles st = Some (tokens, st)
    ∧ ∀ g' st', __call__ self g' smiles st' = Some (tokens, st').
Proof.
  intros Hd. destruct (smiles_call_total self g smiles st) as [[tokens st1] Hcall].
  assert (Hany : ∀ g' st', __call__ self g' smiles st' = Some (tokens, st')).
  { intros g' st'. unfold __call__ in *.
    destruct (String.length smiles =? 1); [by simplify_eq |].
    rewrite (merge_loop_zero _ self g' g _ st' st Hd), Hcall. done. }
  exists tokens. split; [apply Hany | exact Hany].
Qed.

Lemma zero_dropout_ignores_generator_witness :
  let self := (__init__ (Some ["C C"; "CC O"]) 0 (-1) None).1 in
  ∃ tokens,
    __call__ self half "CCOCC" 7 = Some (tokens, 7)
    ∧ ∀ g' st', __call__ self g' "CCOCC" st' = Some (tokens, st').
Proof.
  intros self. apply (zero_dropout_ignores_generator self half "CCOCC" 7). reflexivity.
Defined.

Lemma adjacent_lookup tokens i (a b : string) :
  occurs tokens a b i → (i, [a; b]) ∈ Py.enumerate (adjacent tokens).
Proof.
  intros [Ha Hb]. apply list_elem_of_lookup. exists i.
  unfold Py.enumerate, adjacent. rewrite list_lookup_imap, lookup_zip_with.
  rewrite Ha, lookup_drop. cbn. by rewrite Hb.
Qed.

Lemma merge_loop_converges fuel self g tokens st merged st' :
  (dropout self == 0)%Q →
  merge_loop fuel self g tokens st = Some (merged, st') →
  ∀ i a b, occurs merged a b i → bpe_codes self !! [a; b] = None.
Proof.
  intros Hd. revert tokens st.
  induction fuel as [|fuel IH]; intros tokens st; cbn [merge_loop];
    (destruct (Nat.leb_spec (length tokens) 1) as [Hshort|Hlong];
     [ intros [= <- <-] i a b [_ Hb%lookup_lt_Some]; lia |]);
    rewrite candidates_zero by done;
    (destruct (omap _ _) as [|p ps] eqn:Hcand; [| done || by apply IH]).
  all: intros [= <- <-] i a b Hocc%adjacent_lookup.
  all: destruct (bpe_codes self !! [a; b]) as [rank|] eqn:Hrank; [| done].
  all: assert (Hin : (rank, i, [a; b]) ∈ @nil (nat * nat * list string));
    [| by apply elem_of_nil in Hin].
  all: rewrite <- Hcand; apply list_elem_of_omap; exists (i, [a; b]);
    split; [done | by rewrite Hrank].
Qed.

(** X4. With dropout 0 the engine runs to a fixed point: no two adjacent
    tokens of what [SmilesTokenizer.__call__] returns for an input of
    length other than one form a pair of the merge table. *)
Theorem zero_dropout_merges_to_fixed_point self g (smiles : string) (st : nat)
    (tokens : list string) (st' : nat) :
  (dropout self == 0)%Q → String.length smiles ≠ 1 →
  __call__ self g smiles st = Some (tokens, st') →
  ∀ i a b, occurs tokens a b i → bpe_codes self !! [a; b] = None.
Proof.
  intros Hd Hlen. unfold __call__.
  destruct (Nat.eqb_spec (String.length smiles) 1); [done |].
  by apply merge_loop_converges.
Qed.

Lemma zero_dropout_merges_to_fixed_point_witness :
  let self := (__init__ (Some ["C C"; "CC O"]) 0 (-1) None).1 in
  __call__ self half "CCOCC" 0 = Some (["CCO"; "CC"], 0)
  ∧ ∀ i a b, occurs ["CCO"; "CC"] a b i → bpe_codes self !! [a; b] = None.
Proof.
  intros self.
  assert (Hcall : __call__ self half "CCOCC" 0 = Some (["CCO"; "CC"], 0))
    by (vm_compute; reflexivity).
  split; [exact Hcall |].
  apply (zero_dropout_merges_to_fixed_point self half "CCOCC" 0 _ 0);
    [reflexivity | vm_compute; discriminate | exact Hcall].
Defined.

Lemma undropped_from_one self g st :
  (1 <= dropout self)%Q → (0 <= g st < 1)%Q → undropped self g st = (false, S st).
Proof.
  intros Hd [_ Hr]. unfold undropped, Py.random_random.
  destruct (Qeq_bool (dropout self) 0) eqn:Hz.
  { apply Qeq_bool_iff in Hz. rewrite Hz in Hd. by destruct Hd. }
  rewrite (proj2 (Qle_bool_iff (g st) (dropout self))); [done |].
  apply Qlt_le_weak. by apply Qlt_le_trans with 1%Q.
Qed.

Lemma candidates_from_one self g ips st :
  (1 <= dropout self)%Q → (∀ n, 0 <= g n < 1)%Q →
  candidates self g ips st = ([], length ips + st).
Proof.
  intros Hd Hg. revert st. induction ips as [|[i pr] rest IH]; intros st; [done |].
  cbn [candidates]. rewrite undropped_from_one by done.
  rewrite IH. cbn [length]. f_equal. lia.
Qed.

Lemma length_adjacent tokens :
  length (Py.enumerate (adjacent tokens)) = length tokens - 1.
Proof.
  unfold Py.enumerate, adjacent.
  rewrite length_imap, length_zip_with, length_drop. lia.
Qed.

(** X5. With a dropout of one or more and draws in [0, 1) no merge is
    ever made: an input of length other than one comes back as the tokens
    of the splitter (exclusive set applied), whatever the merge table, and
    one draw has been made for every pair of adjacent tokens. *)
Theorem full_dropout_splits_to_atoms self g (smiles : string) (st : nat) :
  (1 <= dropout self)%Q → (∀ n, 0 <= g n < 1)%Q → String.length smiles ≠ 1 →
  let atoms := SmilesAtomwiseTokenizer.__call__ (smi_tkz self) smiles in
  __call__ self g smiles st = Some (atoms, length atoms - 1 + st).
Proof.
  intros Hd Hg Hlen atoms. unfold __call__.
  destruct (Nat.eqb_spec (String.length smiles) 1); [done |]. fold atoms.
  destruct (length atoms) as [|fuel] eqn:Hatoms; cbn [merge_loop]; rewrite Hatoms.
  { done. }
  destruct (Nat.leb_spec (S fuel) 1); [do 2 f_equal; lia |].
  rewrite candidates_from_one, length_adjacent, Hatoms by done. done.
Qed.

Lemma full_dropout_splits_to_atoms_witness :
  let self := (__init__ (Some ["C C"; "CC O"]) 1 (-1) None).1 in
  __call__ self half "CCOCC" 0 = Some (["C"; "C"; "O"; "C"; "C"], 4).
Proof.
  intros self. apply (full_dropout_splits_to_atoms self half "CCOCC" 0).
  - vm_compute. discriminate.
  - intros n. split; vm_compute; discriminate || reflexivity.
  - vm_compute. discriminate.
Defined.

Lemma candidates_empty_table self g ips st :
  bpe_codes self = ∅ → (candidates self g ips st).1 = [].
Proof.
  intros Hempty. revert st. induction ips as [|[i pr] rest IH]; intros st; [done |].
  cbn [candidates]. destruct (undropped self g st) as [keep st1].
  specialize (IH st1). destruct (candidates self g rest st1) as [ps st2].
  rewrite Hempty, lookup_empty. by destruct keep.
Qed.

(** X6. Without a merge table (none given, or none of its lines
    retained) [SmilesTokenizer.__call__] is the splitter: for every
    dropout and every generator an input of length other than one comes
    back as the splitter's tokens. *)
Theorem empty_table_splits_to_atoms self g (smiles : string) (st : nat) :
  bpe_codes self = ∅ → String.length smiles ≠ 1 →
  ∃ st', __call__ self g smiles st
         = Some (SmilesAtomwiseTokenizer.__call__ (smi_tkz self) smiles, st').
Proof.
  intros Hempty Hlen. unfold __call__.
  destruct (Nat.eqb_spec (String.length smiles) 1); [done |].
  set (atoms := SmilesAtomwiseTokenizer.__call__ _ _).
  pose proof (candidates_empty_table self g (Py.enumerate (adjacent atoms)) st Hempty) as Hc.
  destruct (length atoms) as [|fuel]; cbn [merge_loop];
    (destruct (length atoms <=? 1); [by eexists |]);
    destruct (candidates _ _ _ _) as [pairs st1]; cbn in Hc; subst pairs; by eexists.
Qed.

Lemma empty_table_splits_to_atoms_witness :
  ∃ st', __call__ (__init__ None (1 # 3) (-1) None).1 half "CCO" 0
         = Some (["C"; "C"; "O"], st').
Proof.
  apply (empty_table_splits_to_atoms (__init__ None (1 # 3) (-1) None).1 half "CCO" 0).
  - reflexivity.
  - vm_compute. discriminate.
Defined.

Lemma merge_loop_length fuel self g tokens st merged st' :
  merge_loop fuel self g tokens st = Some (merged, st') →
  length merged ≤ length tokens.
Proof.
  revert tokens st. induction fuel as [|fuel IH]; intros tokens st; cbn [merge_loop];
    (destruct (length tokens <=? 1); [by intros [= <- <-] |]);
    pose proof (candidates_Forall _ self g _ st (adjacent_occurs tokens)) as Hall;
    (destruct (candidates _ _ _ _) as [[|p ps] st1]; [by intros [= <- <-] |]);
    [done |].
  intros Hloop%IH. destruct (merge_pass_spec tokens p ps Hall) as [_ Hlt]. lia.
Qed.

(** X7. Whatever the exclusive set, the dropout and the draws, on an
    input of length other than one [SmilesTokenizer.__call__] returns
    tokens that spell the same text as the tokens of its splitter and
    are not more than those. *)
Theorem merging_keeps_text_and_count self g (smiles : string) (st : nat) :
  String.length smiles ≠ 1 →
  let atoms := SmilesAtomwiseTokenizer.__call__ (smi_tkz self) smiles in
  ∃ tokens st',
    __call__ self g smiles st = Some (tokens, st')
    ∧ Py.join tokens = Py.join atoms
    ∧ length tokens ≤ length atoms.
Proof.
  intros Hlen atoms. unfold __call__.
  destruct (Nat.eqb_spec (String.length smiles) 1); [done |]. fold atoms.
  destruct (merge_loop_spec (length atoms) self g atoms st) as (tokens & st' & Hloop & Hjoin);
    [done |].
  exists tokens, st'. split; [done |]. split; [done |].
  by eapply merge_loop_length.
Qed.

Lemma merging_keeps_text_and_count_witness :
  let self := (__init__ (Some ["C C"; "<unk> C"]) 0 (-1) (Some ["[nH]"])).1 in
  ∃ tokens st',
    __call__ self half "[C@@H]CC[nH]" 0 = Some (tokens, st')
    ∧ Py.join tokens = "<unk>CC[nH]"
    ∧ length tokens ≤ 4.
Proof.
  intros self. apply (merging_keeps_text_and_count self half "[C@@H]CC[nH]" 0).
  vm_compute. discriminate.
Defined.

End EngineFurther.

(** ** The merge table *)

Section MergeTableFurther.
Import SmilesTokenizer.

(** X8. Only the first lines of the merge-table file are used: all of
    them for [merges = -1], the first [merges] for [merges >= 0], none for
    [merges < -1].  The constructor behaves as on the file cut after
    those lines, so a malformed line beyond the limit is never seen. *)
Theorem merges_limit_truncates_file (f : list string) (d : Q) (merges : Z)
    (exclusive_tokens : option (list string)) :
  let kept := if decide (merges = (-1)%Z) then length f else Z.to_nat merges in
  __init__ (Some f) d merges exclusive_tokens
  = __init__ (Some (take kept f)) d (-1) exclusive_tokens.
Proof.
  intros kept. unfold __init__.
  assert (Hread : read_codes f merges = read_codes (take kept f) (-1)).
  { rewrite !read_codes_prefix. fold kept. rewrite decide_True by done.
    by rewrite (take_ge (take kept f)). }
  by rewrite Hread.
Qed.

Lemma codes_dict_snoc (codes : list (list string)) (code : list string) :
  codes_dict (codes ++ [code]) = <[code := length codes]> (codes_dict codes).
Proof.
  unfold codes_dict, Py.enumerate. rewrite imap_app, foldl_app. cbn.
  by rewrite Nat.add_0_r.
Qed.

Lemma codes_dict_lookup (codes : list (list string)) (code : list string) (i : nat) :
  codes_dict codes !! code = Some i
  ↔ codes !! i = Some code ∧ ∀ j, i < j → codes !! j ≠ Some code.
Proof.
  revert i. induction codes as [|x codes IH] using rev_ind; intros i.
  { unfold codes_dict. cbn. rewrite lookup_empty. split; [done | by intros [? _]]. }
  rewrite codes_dict_snoc. destruct (decide (x = code)) as [->|Hne].
  - rewrite lookup_insert_eq. split.
    + intros [= <-]. split; [by apply list_lookup_middle |].
      intros j Hj. rewrite lookup_ge_None_2; [done |]. rewrite length_app. cbn. lia.
    + intros [Hi Hlast]. f_equal.
      apply lookup_lt_Some in Hi as Hlt. rewrite length_app in Hlt. cbn in Hlt.
      destruct (decide (i = length codes)) as [|Hi']; [done |].
      destruct (Hlast (length codes)); [lia | by apply list_lookup_middle].
  - rewrite lookup_insert_ne by done. rewrite IH. split.
    + intros [Hi Hlast]. split; [by apply lookup_app_l_Some |].
      intros j Hj Hcode. apply lookup_snoc_Some in Hcode as [[_ Hcode]|[_ ?]]; [| done].
      by apply (Hlast j).
    + intros [Hi Hlast].
      apply lookup_snoc_Some in Hi as [[_ Hi]|[_ ?]]; [| done].
      split; [done |]. intros j Hj Hcode. apply (Hlast j Hj).
      by apply lookup_app_l_Some.
Qed.

(** X9. When every retained line of the file has two fields the
    constructor returns, and the rank of a pair in [bpe_codes] is the
    number (from 0) of the last retained line that spells it; a pair that
    no retained line spells is not in the table. *)
Theorem rank_is_last_line (f : list string) (d : Q) (merges : Z)
    (exclusive_tokens : option (list string)) :
  (∀ i line, f !! i = Some line → retained merges i → length (fields line) = 2) →
  (__init__ (Some f) d merges exclusive_tokens).2 = Py.Ok ()
  ∧ ∀ code i,
      bpe_codes (__init__ (Some f) d merges exclusive_tokens).1 !! code = Some i
      ↔ (∃ line, f !! i = Some line ∧ retained merges i ∧ code = fields line)
        ∧ ∀ j line, i < j → f !! j = Some line → retained merges j → fields line ≠ code.
Proof.
  intros Hwf.
  assert (Hall : Forall (λ item, length item = 2) (read_codes f merges)).
  { apply Forall_lookup. intros i item (line & Hline & Hret & ->)%read_codes_lookup.
    by eapply Hwf. }
  rewrite (well_formed_table_loads f d merges exclusive_tokens Hall). cbn [fst snd bpe_codes].
  split; [done |]. intros code i. rewrite codes_dict_lookup, read_codes_lookup.
  split; intros [Hi Hlast]; (split; [done |]).
  - intros j line Hj Hline Hret <-. apply (Hlast j Hj).
    apply read_codes_lookup. by exists line.
  - intros j Hj (line & Hline & Hret & ->)%read_codes_lookup. by apply (Hlast j line).
Qed.

Lemma rank_is_last_line_witness :
  let f := ["C C"; "CC O"; " C C  "; "oops"] in
  (__init__ (Some f) 0 3 None).2 = Py.Ok ()
  ∧ bpe_codes (__init__ (Some f) 0 3 None).1 !! ["C"; "C"] = Some 2.
Proof.
  intros f.
  assert (Hwf : ∀ i line, f !! i = Some line → retained 3 i → length (fields line) = 2).
  { intros i line Hline [Hi|Hi]; [| done].
    do 3 (destruct i as [|i]; [by injection Hline as <- |]). lia. }
  destruct (rank_is_last_line f 0 3 None Hwf) as [Hok Hrank].
  split; [exact Hok |]. apply Hrank. split.
  - exists " C C  ". split; [reflexivity |]. split; [left; lia | reflexivity].
  - intros j line Hj Hline [Hret|Hret]; [lia | done].
Defined.

End MergeTableFurther.

(** ** The numerical tokenizer *)

Section Numerical.
Import NumericalTokenizer.

Lemma index_dot_Some (digits : list string) (dot : nat) :
  index_dot digits = Some dot → digits !! dot = Some ".".
Proof.
  revert dot. induction digits as [|d rest IH]; intros dot; cbn [index_dot]; [done |].
  case_bool_decide as Hd; [by intros [= <-]; subst |].
  destruct (index_dot rest) as [k|]; [| done]. intros [= <-]. by apply IH.
Qed.

Lemma place_other dot tokens idx (v : string) j :
  j ≠ idx → place dot tokens (idx, v) !! j = tokens !! j.
Proof.
  intros Hj. unfold place. case_bool_decide; [done |].
  by rewrite list_lookup_insert_ne.
Qed.

Lemma fold_place_before dot (l : list string) k tokens j :
  j < k → foldl (place dot) tokens (imap (λ n, pair (k + n)) l) !! j = tokens !! j.
Proof.
  revert k tokens. induction l as [|v l IH]; intros k tokens Hj; [done |].
  cbn [imap foldl]. rewrite (imap_ext _ (λ n, pair (S k + n))) by (intros; cbn; f_equal; lia).
  rewrite IH by lia. apply place_other. lia.
Qed.

Lemma fold_place_length dot (l : list (nat * string)) tokens :
  length (foldl (place dot) tokens l) = length tokens.
Proof.
  revert tokens. induction l as [|[idx v] l IH]; intros tokens; [done |].
  cbn [foldl]. rewrite IH. unfold place. case_bool_decide; [done |].
  by rewrite length_insert.
Qed.

Lemma fold_place_at dot (l : list string) k tokens n (v : string) :
  (∀ m w, l !! m = Some w → tokens !! (k + m) = Some w) →
  l !! n = Some v →
  foldl (place dot) tokens (imap (λ n, pair (k + n)) l) !! (k + n)
  = Some (if decide (k + n = dot) then v else format v (exponent dot (k + n))).
Proof.
  revert k tokens n. induction l as [|v0 l IH]; intros k tokens n Hcopy Hn; [done |].
  cbn [imap foldl]. rewrite (imap_ext _ (λ n, pair (S k + n))) by (intros; cbn; f_equal; lia).
  destruct n as [|n].
  - injection Hn as ->. rewrite fold_place_before by lia.
    pose proof (Hcopy 0 v eq_refl) as Hv. unfold place.
    case_bool_decide; case_decide; try done.
    apply list_lookup_insert_eq. by eapply lookup_lt_Some.
  - replace (k + S n) with (S k + n) by lia. apply IH; [| done].
    intros m w Hm. rewrite place_other by lia.
    replace (S k + m) with (k + S m) by lia. by apply Hcopy.
Qed.

(** X10. [NumericalTokenizer.__call__] returns one token for every match
    of its pattern (a digit with its sign, or a dot), in the same order.
    The first dot stays ["."]; a match [v] at position [idx] before it
    becomes ["_v_p_"] with [p = dot - idx - 1], and one after it with
    [p = dot - idx], where [dot] is the position of the first dot, or the
    number of matches when there is no dot. *)
Theorem numerical_tokens_by_position (number : string) :
  let digits := Re.findall REGEX number in
  let dot := default (length digits) (index_dot digits) in
  length (__call__ number) = length digits
  ∧ ∀ idx v, digits !! idx = Some v →
      __call__ number !! idx
      = Some (if decide (idx = dot) then "."
              else "_" +:+ v +:+ "_"
                   +:+ pretty (if idx <? dot
                               then (Z.of_nat dot - Z.of_nat idx - 1)%Z
                               else (Z.of_nat dot - Z.of_nat idx)%Z)
                   +:+ "_").
Proof.
  intros digits dot. unfold __call__. fold digits. fold dot. split.
  { apply fold_place_length. }
  intros idx v Hv. unfold Py.enumerate.
  rewrite (imap_ext _ (λ n, pair (0 + n))) by done.
  change idx with (0 + idx) at 1.
  rewrite (fold_place_at dot digits 0 digits idx v) by done.
  cbn [Nat.add]. case_decide as Hdot; [| done].
  f_equal. subst idx. unfold dot in Hv.
  destruct (index_dot digits) as [k|] eqn:Hk.
  - apply index_dot_Some in Hk. change (digits !! k = Some v) in Hv. congruence.
  - change (digits !! length digits = Some v) in Hv. apply lookup_lt_Some in Hv. lia.
Qed.

Lemma numerical_tokens_by_position_witness :
  length (__call__ "-12.5.3+x7-") = 7
  ∧ __call__ "-12.5.3+x7-" !! 0 = Some "_-1_1_"
  ∧ __call__ "-12.5.3+x7-" !! 2 = Some "."
  ∧ __call__ "-12.5.3+x7-" !! 4 = Some "_._-2_".
Proof.
  destruct (numerical_tokens_by_position "-12.5.3+x7-") as [Hlen Hat].
  split; [exact Hlen |].
  split; [apply (Hat 0 "-1"); reflexivity |].
  split; [apply (Hat 2 "."); reflexivity | apply (Hat 4 "."); reflexivity].
Defined.

End Numerical.

(** ** The vocabulary *)

Section VocabularyFurther.
Import MoltxTokenizer.
Implicit Types (self : t) (g : nat → Q).

(** What holds of every object constructed and then used. *)
Lemma constructed_then_run g token_size freeze dropout spe_codes spe_merges self0 st0 cs
    self st :
  (0 <= default default_token_size token_size)%Z →
  __init__ token_size freeze dropout spe_codes spe_merges = Py.Ok self0 →
  run g (self0, st0) cs = Some (self, st) →
  consistent self ∧ within_capacity self ∧ extends self0 self.
Proof.
  intros HN Hinit Hrun. destruct (init_spec _ _ _ _ _ _ HN Hinit) as [Hc0 Hcap0].
  destruct (run_spec g self0 st0 cs Hc0 Hcap0) as (self' & st' & Hrun' & ? & ? & ? & _).
  by simplify_eq.
Qed.

(** X11. On a tokenizer constructed without [freeze] and with a capacity
    of at least six, every sequence of [_update_tokens], [__call__] and
    [load] leaves the reserved tokens at the identifiers 0 to 5, in the
    order pad, unk, bos, eos, sep, cls, in both directions of
    [__getitem__]. *)
Theorem reserved_identifiers_persist g token_size dropout spe_codes spe_merges self0 st0
    (cs : list registration) self st :
  (6 <= default default_token_size token_size)%Z →
  __init__ token_size (Some false) dropout spe_codes spe_merges = Py.Ok self0 →
  run g (self0, st0) cs = Some (self, st) →
  ∀ k token, reserved !! k = Some token →
    __getitem__ self (Str token) = Py.Ok (Int (Z.of_nat k))
    ∧ __getitem__ self (Int (Z.of_nat k)) = Py.Ok (Str token).
Proof.
  intros HN Hinit Hrun k token Hk.
  assert (H0 : (0 <= default default_token_size token_size)%Z) by lia.
  destruct (constructed_then_run g _ _ _ _ _ _ _ _ _ _ H0 Hinit Hrun) as (Hc & _ & Hext).
  destruct (init_reserved _ _ _ _ _ Hinit HN) as [_ Hres].
  pose proof (Hext _ _ (Hres 1 unk eq_refl)) as Hunk.
  pose proof (Hext _ _ (Hres k token Hk)) as Htoken.
  split.
  - cbn. by rewrite Hunk, Htoken.
  - apply Hc in Htoken. cbn. rewrite list_getitem_nonneg by lia.
    by rewrite Nat2Z.id, Htoken.
Qed.

Lemma reserved_identifiers_persist_witness :
  let cs := [Call "<bos>CCO<eos>" false; Load ["<unk>"; "S"]; Update ["N"; "<cls>"]] in
  ∃ self st,
    run half (small, 0) cs = Some (self, st)
    ∧ __getitem__ self (Str "<unk>") = Py.Ok (Int 1)
    ∧ __getitem__ self (Int 5) = Py.Ok (Str "<cls>").
Proof.
  intros cs.
  destruct (run half (small, 0) cs) as [[self st]|] eqn:Hrun; [| by vm_compute in Hrun].
  exists self, st. split; [reflexivity |].
  assert (Hinit : __init__ (Some 9%Z) (Some false) None None None = Py.Ok small)
    by (vm_compute; reflexivity).
  split.
  - apply (reserved_identifiers_persist half (Some 9%Z) None None None small 0 cs self st
             ltac:(cbn; lia) Hinit Hrun 1 "<unk>" eq_refl).
  - apply (reserved_identifiers_persist half (Some 9%Z) None None None small 0 cs self st
             ltac:(cbn; lia) Hinit Hrun 5 "<cls>" eq_refl).
Defined.

Lemma register_extends self tokens : extends self (register self tokens).
Proof.
  unfold extends. revert self. induction tokens as [|token rest IH]; intros self t i Hi;
    [done |].
  cbn [register]. destruct (_token_idx self !! token) eqn:Htoken; [by apply IH |].
  destruct (_ <=? _)%Z; [done |]. apply IH. cbn [set_vocabulary _token_idx].
  rewrite lookup_insert_ne; [done | congruence].
Qed.

(** After [register], a token of the list is registered or the
    vocabulary is full. *)
Lemma register_settles self tokens token :
  token ∈ tokens →
  is_Some (_token_idx (register self tokens) !! token)
  ∨ (_token_size self <= Z.of_nat (__len__ (register self tokens)))%Z.
Proof.
  revert self. induction tokens as [|t rest IH]; intros self Hin;
    [by apply elem_of_nil in Hin |].
  cbn [register]. destruct (_token_idx self !! t) as [k|] eqn:Ht.
  - apply elem_of_cons in Hin as [->|Hin]; [| by apply IH].
    left. exists k. by apply register_extends.
  - destruct (Z.leb_spec (_token_size self) (Z.of_nat (length (_tokens self))));
      [by right |].
    set (self1 := set_vocabulary self _ _).
    apply elem_of_cons in Hin as [->|Hin]; [| by apply (IH self1)].
    left. exists (length (_tokens self)). apply register_extends.
    unfold self1. cbn. apply lookup_insert_eq.
Qed.

Lemma register_settled self tokens :
  (∀ token, token ∈ tokens →
     is_Some (_token_idx self !! token) ∨ (_token_size self <= Z.of_nat (__len__ self))%Z) →
  register self tokens = self.
Proof.
  induction tokens as [|t rest IH]; intros Hall; [done |].
  cbn [register]. destruct (_token_idx self !! t) as [k|] eqn:Ht.
  - apply IH. intros token Hin. apply Hall. by right.
  - destruct (Hall t) as [[k Hk]|Hfull]; [by left | congruence |].
    unfold __len__ in Hfull.
    destruct (Z.leb_spec (_token_size self) (Z.of_nat (length (_tokens self)))); [done | lia].
Qed.

(** X12. [_update_tokens] is idempotent: registering the same list of
    tokens a second time changes nothing, whether the first time all of
    them were registered or the capacity was reached on the way. *)
Theorem update_tokens_idempotent self (tokens : list string) :
  _update_tokens (_update_tokens self tokens) tokens = _update_tokens self tokens.
Proof.
  unfold _update_tokens. destruct (_freeze self) eqn:Hfreeze.
  { by rewrite Hfreeze. }
  destruct (register_fields self tokens) as (Hsize & Hfr & _). rewrite Hfr, Hfreeze.
  apply register_settled. intros token Hin. rewrite Hsize. by apply register_settles.
Qed.

(** X13. When the tokenizer is not frozen and the capacity leaves room for
    as many tokens as the list has, [_update_tokens] registers every token
    of the list, and the vocabulary grows by at most the length of the
    list. *)
Theorem update_tokens_registers_all self (tokens : list string) :
  _freeze self = false →
  (Z.of_nat (__len__ self + length tokens) <= _token_size self)%Z →
  (∀ token, token ∈ tokens → is_Some (_token_idx (_update_tokens self tokens) !! token))
  ∧ __len__ self ≤ __len__ (_update_tokens self tokens) ≤ __len__ self + length tokens.
Proof.
  intros Hfreeze. unfold _update_tokens, __len__. rewrite Hfreeze. clear Hfreeze.
  revert self. induction tokens as [|t rest IH]; intros self Hroom.
  { split; [by intros ? ?%elem_of_nil | cbn; lia]. }
  cbn [register length] in *. destruct (_token_idx self !! t) as [k|] eqn:Ht.
  - destruct (IH self) as [Hall Hlen]; [lia |]. split; [| lia].
    intros token [->|Hin]%elem_of_cons; [| by apply Hall].
    exists k. by apply register_extends.
  - destruct (Z.leb_spec (_token_size self) (Z.of_nat (length (_tokens self)))); [lia |].
    set (self1 := set_vocabulary self _ _).
    assert (Hlen1 : length (_tokens self1) = S (length (_tokens self))).
    { unfold self1. cbn. rewrite length_app. cbn. lia. }
    destruct (IH self1) as [Hall Hlen]; [rewrite Hlen1; unfold self1; cbn; lia |].
    split; [| lia].
    intros token [->|Hin]%elem_of_cons; [| by apply Hall].
    exists (length (_tokens self)). apply register_extends.
    unfold self1. cbn. apply lookup_insert_eq.
Qed.

Lemma update_tokens_registers_all_witness :
  (∀ token, token ∈ ["C"; "O"; "C"] →
     is_Some (_token_idx (_update_tokens small ["C"; "O"; "C"]) !! token))
  ∧ 6 ≤ __len__ (_update_tokens small ["C"; "O"; "C"]) ≤ 6 + 3.
Proof.
  apply (update_tokens_registers_all small ["C"; "O"; "C"]).
  - reflexivity.
  - vm_compute. discriminate.
Defined.

(** X14. A frozen tokenizer is not changed by any sequence of
    [_update_tokens] and [__call__]: encoding with it never grows the
    vocabulary. *)
Theorem frozen_is_not_mutated g self (st : nat) (cs : list registration) :
  _freeze self = true →
  Forall (λ c, ∀ tokens, c ≠ Load tokens) cs →
  ∃ st', run g (self, st) cs = Some (self, st').
Proof.
  intros Hfreeze Hcs. revert st. induction Hcs as [|c cs Hc _ IH]; intros st.
  { by exists st. }
  cbn [run]. destruct c as [tokens|smiles tokens_only|tokens];
    cbn [step fst snd]; [| | by destruct (Hc tokens)].
  - unfold _update_tokens. rewrite Hfreeze. cbn. apply IH.
  - unfold __call__, encode.
    destruct (encode_from_total (String.length smiles) self g smiles st)
      as [[tokens st1] ->]; [done |].
    cbn. unfold _update_tokens. rewrite Hfreeze. cbn. apply IH.
Qed.

Lemma frozen_is_not_mutated_witness :
  let self := set_freeze small true in
  ∃ st', run half (self, 0) [Call "CCO" false; Update ["N"]; Call "c1ccccc1" true]
         = Some (self, st').
Proof.
  intros self. apply (frozen_is_not_mutated half self 0); [reflexivity |].
  repeat constructor; discriminate.
Defined.

End VocabularyFurther.

(** ** Persistence and lookups *)

Section Persistence.
Import MoltxTokenizer.
Implicit Types (self : t) (g : nat → Q).

Lemma frozen_empty token_size dropout spe_codes spe_merges self :
  __init__ token_size (Some true) dropout spe_codes spe_merges = Py.Ok self →
  _tokens self = [] ∧ _token_idx self = ∅
  ∧ _token_size self = default default_token_size token_size
  ∧ _freeze self = true.
Proof. intros Hinit. by apply init_vocabulary in Hinit as (? & ? & ? & ?). Qed.

Lemma register_set_freeze self tokens (freeze : bool) :
  register (set_freeze self freeze) tokens = set_freeze (register self tokens) freeze.
Proof.
  revert self. induction tokens as [|t rest IH]; intros self; [done |].
  cbn [register set_freeze _token_idx _tokens _token_size].
  destruct (_token_idx self !! t); [apply IH |].
  destruct (_ <=? _)%Z; [done |]. apply (IH (set_vocabulary self _ _)).
Qed.

(** X15. [load] registers the tokens of the file whether or not the
    tokenizer is frozen, exactly as [_update_tokens] would on the unfrozen
    tokenizer (capacity included), and leaves the freeze flag as it
    was. *)
Theorem load_ignores_and_restores_freeze self (tokens : list string) :
  _freeze (load self tokens) = _freeze self
  ∧ load self tokens
    = set_freeze (_update_tokens (set_freeze self false) tokens) (_freeze self)
  ∧ _tokens (load self tokens) = _tokens (register self tokens)
  ∧ _token_idx (load self tokens) = _token_idx (register self tokens).
Proof.
  unfold load, _load_tokens, _update_tokens. cbn [set_freeze _freeze].
  by rewrite register_set_freeze.
Qed.

Lemma consistent_NoDup self : consistent self → NoDup (_tokens self).
Proof.
  intros Hc. apply NoDup_alt. intros i j token Hi%Hc Hj%Hc. congruence.
Qed.

Lemma register_fresh self tokens :
  NoDup tokens → (∀ token, token ∈ tokens → _token_idx self !! token = None) →
  (Z.of_nat (__len__ self + length tokens) <= _token_size self)%Z →
  _tokens (register self tokens) = (_tokens self ++ tokens)%list.
Proof.
  unfold __len__. intros Hnd. revert self.
  induction Hnd as [|t rest Ht _ IH]; intros self Hnew Hroom.
  { by rewrite app_nil_r. }
  cbn [register length] in *. rewrite Hnew by (by left).
  destruct (Z.leb_spec (_token_size self) (Z.of_nat (length (_tokens self)))); [lia |].
  rewrite IH.
  - cbn. by rewrite <- app_assoc.
  - intros token Hin. cbn. rewrite lookup_insert_ne; [| by intros ->].
    apply Hnew. by right.
  - cbn. rewrite length_app. cbn. lia.
Qed.

(** X16. Dump and load round trip: loading what [dumps] wrote for a
    tokenizer (constructed and used in any way) into a tokenizer with an
    empty vocabulary and a capacity of at least as many tokens, frozen or
    not, rebuilds the same vocabulary: the same tokens with the same
    identifiers. *)
Theorem dump_load_round_trip g token_size freeze dropout spe_codes spe_merges self0 st0 cs
    source st target :
  (0 <= default default_token_size token_size)%Z →
  __init__ token_size freeze dropout spe_codes spe_merges = Py.Ok self0 →
  run g (self0, st0) cs = Some (source, st) →
  _tokens target = [] → _token_idx target = ∅ →
  (Z.of_nat (__len__ source) <= _token_size target)%Z →
  _tokens (load target (dumps source)) = _tokens source
  ∧ _token_idx (load target (dumps source)) = _token_idx source.
Proof.
  intros HN Hinit Hrun Hempty Hidx Hroom.
  destruct (constructed_then_run g _ _ _ _ _ _ _ _ _ _ HN Hinit Hrun) as (Hc & _ & _).
  destruct (load_ignores_and_restores_freeze target (dumps source)) as (_ & _ & Ht & Hi).
  assert (Htokens : _tokens (register target (dumps source)) = _tokens source).
  { rewrite register_fresh.
    - by rewrite Hempty.
    - by apply consistent_NoDup.
    - intros token _. by rewrite Hidx.
    - unfold __len__ in *. rewrite Hempty. cbn. unfold dumps. lia. }
  destruct (register_spec target (dumps source)) as (Hc' & _ & _).
  { intros token i. by rewrite Hidx, Hempty, lookup_empty, lookup_nil. }
  { unfold within_capacity, __len__. rewrite Hempty. cbn. lia. }
  rewrite Ht, Hi. split; [done |].
  apply map_eq. intros token. apply option_eq. intros i.
  by rewrite (Hc' token i), Htokens, (Hc token i).
Qed.

Lemma dump_load_round_trip_witness :
  let cs := [Call "<bos>CCO<eos>" false; Update ["N"]] in
  let target := {| _tokens := []; _token_idx := ∅; _token_size := 9; _freeze := true;
                   _smi_tkz := plain |} in
  ∃ source st,
    run half (small, 0) cs = Some (source, st)
    ∧ _tokens (load target (dumps source)) = _tokens source
    ∧ _token_idx (load target (dumps source)) = _token_idx source.
Proof.
  intros cs target.
  destruct (run half (small, 0) cs) as [[source st]|] eqn:Hrun; [| by vm_compute in Hrun].
  exists source, st. split; [reflexivity |].
  assert (Hinit : __init__ (Some 9%Z) None None None None = Py.Ok small)
    by (vm_compute; reflexivity).
  assert (Hlen : (Z.of_nat (__len__ source) <= 9)%Z).
  { vm_compute in Hrun. injection Hrun as <- _. vm_compute. discriminate. }
  apply (dump_load_round_trip half (Some 9%Z) None None None None small 0 cs source st target
           ltac:(cbn; lia) Hinit Hrun eq_refl eq_refl Hlen).
Defined.

(** X17. [from_jsonfile], for a vocabulary file without repeated tokens
    and not longer than the capacity: when the constructor returns (the
    merge table is well formed), the tokenizer is frozen, its vocabulary
    is the list of the file, and every token has its position in the file
    as identifier. *)
Theorem from_jsonfile_loads_vocabulary (spe_file tks_file : list string)
    (token_size : option Z) (dropout : option Q) (spe_merges : option Z) tkz :
  NoDup tks_file →
  (Z.of_nat (length tks_file) <= default default_token_size token_size)%Z →
  from_jsonfile spe_file tks_file token_size dropout spe_merges = Py.Ok tkz →
  _freeze tkz = true
  ∧ _tokens tkz = tks_file
  ∧ ∀ i token, tks_file !! i = Some token → _token_idx tkz !! token = Some i.
Proof.
  intros Hnd Hroom. unfold from_jsonfile.
  destruct (__init__ token_size (Some true) dropout (Some spe_file) spe_merges)
    as [tkz0|e] eqn:Hinit; [| done].
  cbn. intros [= <-].
  pose proof (frozen_empty _ _ _ _ _ Hinit) as (Htokens & Hidx & Hsize & Hfreeze).
  destruct (load_ignores_and_restores_freeze tkz0 tks_file) as (Hf & _ & Ht & Hi).
  assert (Hreg : _tokens (register tkz0 tks_file) = tks_file).
  { rewrite register_fresh; [by rewrite Htokens | done | |].
    - intros token _. by rewrite Hidx.
    - unfold __len__. rewrite Htokens, Hsize. cbn. lia. }
  destruct (register_spec tkz0 tks_file) as (Hc & _ & _).
  { intros token i. by rewrite Hidx, Htokens, lookup_empty, lookup_nil. }
  { unfold within_capacity, __len__. rewrite Htokens, Hsize. cbn. lia. }
  rewrite Hf, Ht, Hi, Hreg. split; [done |]. split; [done |].
  intros i token Hi'. apply Hc. by rewrite Hreg.
Qed.

Lemma from_jsonfile_loads_vocabulary_witness :
  let tks := ["<pad>"; "<unk>"; "C"; "CC"; "O"] in
  ∃ tkz,
    from_jsonfile ["C C"] tks None None None = Py.Ok tkz
    ∧ _freeze tkz = true ∧ _tokens tkz = tks
    ∧ ∀ i token, tks !! i = Some token → _token_idx tkz !! token = Some i.
Proof.
  intros tks.
  destruct (from_jsonfile ["C C"] tks None None None) as [tkz|e] eqn:Hfrom;
    [| by vm_compute in Hfrom].
  exists tkz. split; [reflexivity |].
  apply (from_jsonfile_loads_vocabulary ["C C"] tks None None None tkz);
    [| vm_compute; discriminate | exact Hfrom].
  apply (bool_decide_unpack _). vm_compute. exact I.
Defined.

End Persistence.

(** ** Identifiers and tokens, back and forth *)

Section RoundTrips.
Import MoltxTokenizer.
Implicit Types (self : t) (g : nat → Q).

Lemma getitem_of_identifier self token i :
  consistent self → _token_idx self !! token = Some i →
  __getitem__ self (Int (Z.of_nat i)) = Py.Ok (Str token).
Proof.
  intros Hc Hi%Hc. cbn. rewrite list_getitem_nonneg by lia.
  by rewrite Nat2Z.id, Hi.
Qed.

(** X18. On a tokenizer constructed and used in any way in which [unk] is
    registered, the two directions of [__getitem__] are inverse to each
    other: the token at an identifier [0 <= i < size] has the identifier
    [i], and a registered token is the token at its identifier. *)
Theorem getitem_round_trip g token_size freeze dropout spe_codes spe_merges self0 st0 cs
    self st (u : nat) :
  (0 <= default default_token_size token_size)%Z →
  __init__ token_size freeze dropout spe_codes spe_merges = Py.Ok self0 →
  run g (self0, st0) cs = Some (self, st) →
  _token_idx self !! unk = Some u →
  (∀ i, (0 <= i < Z.of_nat (__len__ self))%Z →
     ∃ token, __getitem__ self (Int i) = Py.Ok (Str token)
              ∧ __getitem__ self (Str token) = Py.Ok (Int i))
  ∧ (∀ token i, _token_idx self !! token = Some i →
       __getitem__ self (Str token) = Py.Ok (Int (Z.of_nat i))
       ∧ __getitem__ self (Int (Z.of_nat i)) = Py.Ok (Str token)).
Proof.
  intros HN Hinit Hrun Hu.
  destruct (constructed_then_run g _ _ _ _ _ _ _ _ _ _ HN Hinit Hrun) as (Hc & _ & _).
  split.
  - intros i Hi. destruct (list_getitem_lt (_tokens self) i Hi) as (token & Htoken & Hget).
    exists token. cbn. rewrite Hget. split; [done |].
    apply Hc in Htoken. rewrite Hu, Htoken. cbn. do 2 f_equal. lia.
  - intros token i Hi. split; [| by apply getitem_of_identifier].
    cbn. by rewrite Hu, Hi.
Qed.

Lemma getitem_round_trip_witness :
  (∀ i, (0 <= i < Z.of_nat (__len__ small))%Z →
     ∃ token, __getitem__ small (Int i) = Py.Ok (Str token)
              ∧ __getitem__ small (Str token) = Py.Ok (Int i))
  ∧ (∀ token i, _token_idx small !! token = Some i →
       __getitem__ small (Str token) = Py.Ok (Int (Z.of_nat i))
       ∧ __getitem__ small (Int (Z.of_nat i)) = Py.Ok (Str token)).
Proof.
  apply (getitem_round_trip half (Some 9%Z) None None None None small 0 [] small 0 1).
  - cbn. lia.
  - vm_compute. reflexivity.
  - reflexivity.
  - vm_compute. reflexivity.
Defined.

Lemma decoded_identifier self (u : nat) token :
  consistent self → _token_idx self !! unk = Some u →
  let z := Z.of_nat (default u (_token_idx self !! token)) in
  in_range self z
  ∧ _tokens self !!! position self z
    = (if decide (is_Some (_token_idx self !! token)) then token else unk).
Proof.
  intros Hc Hu z. unfold in_range, position, __len__.
  assert (Hz : ∃ i t, z = Z.of_nat i ∧ _tokens self !! i = Some t
                      ∧ t = if decide (is_Some (_token_idx self !! token))
                            then token else unk).
  { unfold z. destruct (_token_idx self !! token) as [i|] eqn:Hi.
    - exists i, token. rewrite decide_True by done. split; [done |].
      split; [by apply Hc | done].
    - exists u, unk. rewrite decide_False by (by intros [? ?]). split; [done |].
      split; [by apply Hc | done]. }
  destruct Hz as (i & t & -> & Hi & <-).
  apply lookup_lt_Some in Hi as Hlt. split; [lia |].
  destruct (Z.ltb_spec (Z.of_nat i) 0); [lia |].
  rewrite Nat2Z.id. by apply list_lookup_total_correct.
Qed.

(** X19. Encode then decode: on a tokenizer constructed and used in any
    way in which [unk] is registered, [__call__] returns identifiers
    (it does not raise), and [decode] of them on the tokenizer as
    [__call__] left it concatenates the tokens of [encode], each token
    that is not in the vocabulary after the call replaced by ["<unk>"];
    when every token is in the vocabulary it gives back their text. *)
Theorem call_then_decode g token_size freeze dropout spe_codes spe_merges self0 st0 cs
    self st (u : nat) (smiles : string) :
  (0 <= default default_token_size token_size)%Z →
  __init__ token_size freeze dropout spe_codes spe_merges = Py.Ok self0 →
  run g (self0, st0) cs = Some (self, st) →
  _token_idx self !! unk = Some u →
  ∃ tokens st' ids,
    let self' := _update_tokens self tokens in
    encode self g smiles st = Some (tokens, st')
    ∧ __call__ self g smiles false st = Some (self', st', Py.Ok (Int <$> ids))
    ∧ decode self' ids
      = Py.Ok (Py.join ((λ token, if decide (is_Some (_token_idx self' !! token))
                                  then token else unk) <$> tokens))
    ∧ ((∀ token, token ∈ tokens → is_Some (_token_idx self' !! token)) →
       decode self' ids = Py.Ok (Py.join tokens)).
Proof.
  intros HN Hinit Hrun Hu.
  destruct (constructed_then_run g _ _ _ _ _ _ _ _ _ _ HN Hinit Hrun) as (Hc & Hcap & _).
  destruct (encode_from_total (String.length smiles) self g smiles st)
    as [[tokens st'] Hencode]; [done |].
  destruct (update_tokens_spec self tokens Hc Hcap) as (Hc' & _ & Hext).
  apply Hext in Hu as Hu'.
  set (self' := _update_tokens self tokens) in *.
  set (ids := (λ token, Z.of_nat (default u (_token_idx self' !! token))) <$> tokens).
  exists tokens, st', ids. cbn zeta.
  assert (Hdecode : decode self' ids
                    = Py.Ok (Py.join ((λ token, if decide (is_Some (_token_idx self' !! token))
                                                then token else unk) <$> tokens))).
  { unfold decode. rewrite lookup_all_in_range.
    - cbn. do 2 f_equal. unfold ids. rewrite <- list_fmap_compose.
      apply list_fmap_ext. intros _ token _. cbn.
      by destruct (decoded_identifier self' u token Hc' Hu') as [_ ->].
    - unfold ids. apply Forall_fmap, Forall_forall. intros token _. cbn.
      by destruct (decoded_identifier self' u token Hc' Hu') as [? _]. }
  split; [done |]. split.
  - unfold __call__. unfold encode in Hencode. unfold encode. rewrite Hencode. cbn.
    fold self'. rewrite Hu'. unfold ids. by rewrite <- list_fmap_compose.
  - split; [done |]. intros Hall. etrans; [exact Hdecode |]. do 2 f_equal.
    rewrite <- (list_fmap_id tokens) at 2. apply list_fmap_ext.
    intros _ token Hin%list_elem_of_lookup_2. by rewrite decide_True by auto.
Qed.

Lemma call_then_decode_witness :
  ∃ tokens st' ids,
    let self' := _update_tokens small tokens in
    encode small half "<bos>CCON<eos>" 0 = Some (tokens, st')
    ∧ __call__ small half "<bos>CCON<eos>" false 0 = Some (self', st', Py.Ok (Int <$> ids))
    ∧ decode self' ids
      = Py.Ok (Py.join ((λ token, if decide (is_Some (_token_idx self' !! token))
                                  then token else unk) <$> tokens))
    ∧ ((∀ token, token ∈ tokens → is_Some (_token_idx self' !! token)) →
       decode self' ids = Py.Ok (Py.join tokens)).
Proof.
  apply (call_then_decode half (Some 9%Z) None None None None small 0 [] small 0 1
           "<bos>CCON<eos>").
  - cbn. lia.
  - vm_compute. reflexivity.
  - reflexivity.
  - vm_compute. reflexivity.
Defined.

Lemma lookup_all_app self (l1 l2 : list Z) :
  lookup_all self (l1 ++ l2)
  = (a ← lookup_all self l1; b ← lookup_all self l2; mret (a ++ b)%list).
Proof.
  induction l1 as [|i l1 IH]; cbn [lookup_all app].
  { cbn. by destruct (lookup_all self l2). }
  destruct (Py.list_getitem (_tokens self) i) as [token|e]; cbn; [| done].
  rewrite IH. destruct (lookup_all self l1) as [a|e]; cbn; [| done].
  by destruct (lookup_all self l2).
Qed.

(** X20. [decode] of a concatenation is the concatenation of the
    [decode]s, and raises as soon as one of the two does, the first one
    first. *)
Theorem decode_app self (l1 l2 : list Z) :
  decode self (l1 ++ l2)
  = (a ← decode self l1; b ← decode self l2; mret (a ++ b)).
Proof.
  unfold decode. rewrite lookup_all_app.
  destruct (lookup_all self l1) as [a|e]; cbn; [| done].
  destruct (lookup_all self l2) as [b|e]; cbn; [| done].
  by rewrite join_app.
Qed.

End RoundTrips.

(** ** [encode]: tags and text *)

Section Encode.
Import MoltxTokenizer.
Implicit Types (self : t) (g : nat → Q).

Lemma encode_from_eq fuel self g s st :
  encode_from fuel self g s st
  = match Re.search REGEX s with
    | Some (start, len) =>
        match fuel with
        | 0 => None
        | S fuel' =>
            '(gap, st1) ← (if 0 <? start
                           then SmilesTokenizer.__call__ (_smi_tkz self) g
                                  (Py.str_take start s) st
                           else Some ([], st));
            '(rest, st2) ← encode_from fuel' self g (Py.str_drop (start + len) s) st1;
            Some ((gap ++ Py.str_take len (Py.str_drop start s) :: rest)%list, st2)
        end
    | None =>
        if 0 <? String.length s
        then SmilesTokenizer.__call__ (_smi_tkz self) g s st
        else Some ([], st)
    end.
Proof. by destruct fuel. Qed.

Lemma encode_from_fuel fuel1 fuel2 self g s st :
  String.length s ≤ fuel1 → String.length s ≤ fuel2 →
  encode_from fuel1 self g s st = encode_from fuel2 self g s st.
Proof.
  revert fuel2 s st. induction fuel1 as [|fuel1 IH]; intros fuel2 s st H1 H2;
    rewrite (encode_from_eq _ self g s st), (encode_from_eq fuel2 self g s st);
    (destruct (Re.search REGEX s) as [[start len]|] eqn:Hsearch; [| done]);
    apply search_bounds in Hsearch; rewrite tag_min_len in Hsearch; [lia |].
  destruct fuel2 as [|fuel2]; [lia |].
  destruct (if 0 <? start then _ else _) as [[gap st1]|]; [| done]. cbn.
  rewrite (IH fuel2); [done | |]; rewrite length_str_drop; lia.
Qed.

Lemma tag_matches (p : ascii → bool) (a b c : ascii) (rest : string) :
  p a = true → p b = true → p c = true →
  Re.match_len (Re.Seq (Re.Lit "<") (Re.Seq (Re.rep 3 (Re.Class p)) (Re.Lit ">")))
    (String "<" (String a (String b (String c (String ">" rest)))))
  = Some 5.
Proof.
  intros Ha Hb Hc. unfold Re.match_len. cbn.
  rewrite bool_decide_eq_true_2 by done. cbn. rewrite Ha. cbn. rewrite Hb. cbn.
  rewrite Hc. cbn. rewrite bool_decide_eq_true_2 by done. done.
Qed.

(** X21. A tag at the start of the text is one token: for word
    characters [a], [b], [c], [encode] of ["<abc>"] followed by [rest]
    is the token ["<abc>"] followed by the tokens of [rest], with the
    draws of [rest] alone. *)
Theorem encode_tag_prefix self g (a b c : ascii) (rest : string) (st : nat) :
  word a = true → word b = true → word c = true →
  encode self g (String "<" (String a (String b (String c (String ">" rest))))) st
  = (λ out, (String "<" (String a (String b (String c ">"))) :: out.1, out.2))
      <$> encode self g rest st.
Proof.
  intros Ha Hb Hc. unfold encode. rewrite encode_from_eq.
  assert (Hsearch : Re.search REGEX
                      (String "<" (String a (String b (String c (String ">" rest)))))
                    = Some (0, 5)).
  { cbn [Re.search]. unfold REGEX. by rewrite tag_matches. }
  rewrite Hsearch. cbn [String.length Nat.ltb Nat.leb mbind option_bind Nat.add].
  change (Py.str_drop 5 (String "<" (String a (String b (String c (String ">" rest))))))
    with rest.
  change (Py.str_take 5 (Py.str_drop 0 _))
    with (String "<" (String a (String b (String c ">")))).
  rewrite (encode_from_fuel _ (String.length rest)) by lia.
  by destruct (encode_from (String.length rest) self g rest st) as [[tokens st']|].
Qed.

Lemma encode_tag_prefix_witness :
  encode small half "<bos>CC" 0
  = (λ out, ("<bos>" :: out.1, out.2)) <$> encode small half "CC" 0.
Proof. apply (encode_tag_prefix small half "b" "o" "s" "CC" 0); reflexivity. Defined.

Lemma chars_app (s1 s2 : string) :
  list_ascii_of_string (s1 ++ s2)
  = (list_ascii_of_string s1 ++ list_ascii_of_string s2)%list.
Proof.
  induction s1 as [|c s1 IH]; [done |].
  rewrite append_cons. cbn. by rewrite IH.
Qed.

Lemma str_drop_add (n m : nat) (s : string) :
  Py.str_drop (n + m) s = Py.str_drop m (Py.str_drop n s).
Proof.
  revert s. induction n as [|n IH]; intros s; [done |].
  destruct s as [|c s]; cbn [Nat.add Py.str_drop]; [by destruct m | apply IH].
Qed.

Lemma kept_from_sublist fuel (s : string) :
  sublist (list_ascii_of_string (Grammar.kept_from fuel s)) (list_ascii_of_string s).
Proof.
  revert s. induction fuel as [|fuel IH]; intros s.
  { cbn. apply sublist_nil_l. }
  destruct s as [|c s]; [cbn; apply sublist_nil_l |].
  rewrite kept_from_S.
  destruct (Re.match_len SmilesAtomwiseTokenizer.REGEX (String c s)) as [[|n]|].
  - cbn [list_ascii_of_string]. by apply sublist_cons.
  - replace (list_ascii_of_string (String c s))
      with (list_ascii_of_string (Py.str_take (S n) (String c s))
            ++ list_ascii_of_string (Py.str_drop (S n) (String c s)))%list
      by (by rewrite <- chars_app, str_take_drop).
    rewrite chars_app. by apply sublist_app.
  - cbn [list_ascii_of_string]. by apply sublist_cons.
Qed.

Lemma smiles_call_sublist (smi : SmilesTokenizer.t) g (smiles : string) st tokens st' :
  SmilesAtomwiseTokenizer.exclusive_set (SmilesTokenizer.smi_tkz smi) = None →
  SmilesTokenizer.__call__ smi g smiles st = Some (tokens, st') →
  sublist (list_ascii_of_string (Py.join tokens)) (list_ascii_of_string smiles).
Proof.
  intros Hex Hcall. destruct (decide (String.length smiles = 1)) as [Hone|Hlen].
  - unfold SmilesTokenizer.__call__ in Hcall. rewrite Hone in Hcall.
    injection Hcall as <- _. cbn. by rewrite append_empty_r.
  - destruct (call_preserves_split_text smi g smiles st Hlen) as (t & s' & Hc & Hjoin).
    rewrite Hcall in Hc. injection Hc as <- <-. rewrite Hjoin.
    unfold SmilesAtomwiseTokenizer.__call__. rewrite Hex, findall_join.
    apply kept_from_sublist.
Qed.

Lemma encode_from_sublist fuel self g (s : string) st tokens st' :
  SmilesAtomwiseTokenizer.exclusive_set (SmilesTokenizer.smi_tkz (_smi_tkz self)) = None →
  encode_from fuel self g s st = Some (tokens, st') →
  sublist (list_ascii_of_string (Py.join tokens)) (list_ascii_of_string s).
Proof.
  intros Hex. revert s st tokens st'.
  induction fuel as [|fuel IH]; intros s st tokens st'; rewrite encode_from_eq;
    (destruct (Re.search REGEX s) as [[start len]|];
     [| destruct (0 <? String.length s);
        [by apply smiles_call_sublist
        | intros [= <- <-]; apply sublist_nil_l]]); [done |].
  destruct (if 0 <? start then _ else _) as [[gap st1]|] eqn:Hgap; [| done]. cbn.
  destruct (encode_from fuel self g _ st1) as [[rest st2]|] eqn:Hrest; [| done]. cbn.
  intros [= <- <-]. rewrite join_app, join_cons, !chars_app.
  replace (list_ascii_of_string s)
    with (list_ascii_of_string (Py.str_take start s)
          ++ list_ascii_of_string (Py.str_take len (Py.str_drop start s))
          ++ list_ascii_of_string (Py.str_drop (start + len) s))%list
    by (by rewrite <- !chars_app, str_drop_add, !str_take_drop).
  apply sublist_app; [| apply sublist_app; [done | by eapply IH]].
  destruct (0 <? start).
  - by eapply smiles_call_sublist.
  - injection Hgap as <- _. apply sublist_nil_l.
Qed.

Lemma step_smi_tkz g self st c self' st' :
  step g (self, st) c = Some (self', st') → _smi_tkz self' = _smi_tkz self.
Proof.
  destruct c as [tokens|smiles tokens_only|tokens]; cbn [step fst snd].
  - intros [= <- _]. apply update_tokens_smi_tkz.
  - unfold __call__. destruct (encode self g smiles st) as [[tokens st1]|]; [| done].
    cbn. intros [= <- _]. apply update_tokens_smi_tkz.
  - intros [= <- _]. unfold load, _load_tokens. cbn [set_freeze _smi_tkz].
    by rewrite update_tokens_smi_tkz.
Qed.

Lemma run_smi_tkz g self st cs self' st' :
  run g (self, st) cs = Some (self', st') → _smi_tkz self' = _smi_tkz self.
Proof.
  revert self st. induction cs as [|c cs IH]; intros self st; cbn [run].
  { by intros [= <- _]. }
  destruct (step g (self, st) c) as [[self1 st1]|] eqn:Hstep; [| done]. cbn.
  intros Hrun%IH. apply step_smi_tkz in Hstep. congruence.
Qed.

(** X22. [encode] only removes characters: on a tokenizer constructed and
    used in any way, the concatenation of the tokens [encode] returns is a
    subsequence of the text, for every dropout, merge table and sequence
    of draws; no character is added, changed or moved. *)
Theorem encode_is_subsequence g token_size freeze dropout spe_codes spe_merges self0 st0 cs
    self st (smiles : string) (st1 : nat) tokens st2 :
  __init__ token_size freeze dropout spe_codes spe_merges = Py.Ok self0 →
  run g (self0, st0) cs = Some (self, st) →
  encode self g smiles st1 = Some (tokens, st2) →
  sublist (list_ascii_of_string (Py.join tokens)) (list_ascii_of_string smiles).
Proof.
  intros Hinit Hrun Hencode. eapply encode_from_sublist; [| exact Hencode].
  apply run_smi_tkz in Hrun. apply init_smi_tkz in Hinit as [_ Hex].
  by rewrite Hrun, Hex.
Qed.

Lemma encode_is_subsequence_witness :
  encode small half "<bos>CzC q(=O)x<eos>" 0
  = Some (["<bos>"; "C"; "C"; "("; "="; "O"; ")"; "<eos>"], 5)
  ∧ sublist (list_ascii_of_string "<bos>CC(=O)<eos>")
            (list_ascii_of_string "<bos>CzC q(=O)x<eos>").
Proof.
  assert (Hencode : encode small half "<bos>CzC q(=O)x<eos>" 0
                    = Some (["<bos>"; "C"; "C"; "("; "="; "O"; ")"; "<eos>"], 5))
    by (vm_compute; reflexivity).
  split; [exact Hencode |].
  apply (encode_is_subsequence half (Some 9%Z) None None None None small 0 [] small 0
           "<bos>CzC q(=O)x<eos>" 0 ["<bos>"; "C"; "C"; "("; "="; "O"; ")"; "<eos>"] 5);
    [vm_compute; reflexivity | reflexivity | exact Hencode].
Defined.

End Encode.

(** ** At capacity *)

Section AtCapacity.
Import MoltxTokenizer.
Implicit Types (self : t) (g : nat → Q).

Lemma register_full self tokens :
  (_token_size self <= Z.of_nat (__len__ self))%Z → register self tokens = self.
Proof. intros Hfull. apply register_settled. intros token _. by right. Qed.

Lemma step_full g self st c :
  (_token_size self <= Z.of_nat (__len__ self))%Z →
  ∃ st', step g (self, st) c = Some (self, st').
Proof.
  intros Hfull. destruct c as [tokens|smiles tokens_only|tokens]; cbn [step fst snd].
  - exists st. unfold _update_tokens.
    destruct (_freeze self); [done | by rewrite register_full].
  - unfold __call__, encode.
    destruct (encode_from_total (String.length smiles) self g smiles st)
      as [[tokens st1] ->]; [done |].
    cbn. exists st1. unfold _update_tokens.
    destruct (_freeze self); [done | by rewrite register_full].
  - exists st. unfold load, _load_tokens, _update_tokens. cbn [set_freeze _freeze].
    rewrite register_full by done. by destruct self.
Qed.

(** X23. Once the vocabulary has reached the capacity it is final: no
    sequence of [_update_tokens], [__call__] and [load] changes the
    tokenizer any more, frozen or not. *)
Theorem full_vocabulary_is_final g self (st : nat) (cs : list registration) :
  (_token_size self <= Z.of_nat (__len__ self))%Z →
  ∃ st', run g (self, st) cs = Some (self, st').
Proof.
  intros Hfull. revert st. induction cs as [|c cs IH]; intros st; cbn [run].
  { by exists st. }
  destruct (step_full g self st c Hfull) as [st1 ->]. cbn. apply IH.
Qed.

Lemma full_vocabulary_is_final_witness :
  let self := _update_tokens small ["C"; "N"; "O"; "S"] in
  __len__ self = 9
  ∧ ∃ st', run half (self, 0) [Call "PF" false; Load ["Cl"]; Update ["Br"]]
           = Some (self, st').
Proof.
  intros self. split; [reflexivity |].
  apply (full_vocabulary_is_final half self 0). vm_compute. discriminate.
Defined.

End AtCapacity.
